(** * Nockchain helper scripts: the export assembler and the command relay

    A shallow embedding of [create_smart_export.py] and [kimi_chat.py].
    Python text is modelled as [string], read as a sequence of code points
    below 256; case mapping and white space follow Python on that range. *)

From Stdlib Require Import String Ascii List Bool Arith Lia.
Import ListNotations.
Open Scope string_scope.

(** ** The Python string and path primitives the two scripts call *)

Module Py.

(** [s.startswith(p)] *)
Fixpoint startswith (s p : string) {struct p} : bool :=
  match p with
  | EmptyString => true
  | String a p' =>
      match s with
      | String b s' => Ascii.eqb a b && startswith s' p'
      | EmptyString => false
      end
  end.

(** [s.endswith(suf)]: some suffix of [s] is [suf]. *)
Fixpoint endswith (s suf : string) : bool :=
  String.eqb s suf ||
  match s with
  | EmptyString => false
  | String _ s' => endswith s' suf
  end.

(** [sub in s] *)
Fixpoint contains (sub s : string) : bool :=
  startswith s sub ||
  match s with
  | EmptyString => false
  | String _ s' => contains sub s'
  end.

(** [s[n:]] *)
Fixpoint drop (n : nat) (s : string) : string :=
  match n, s with
  | O, _ => s
  | S _, EmptyString => EmptyString
  | S n', String _ s' => drop n' s'
  end.

(** [c.lower()]: the letters A to Z, and the capital letters of Latin-1
    (192 to 222, the multiplication sign 215 apart). *)
Definition lower_char (c : ascii) : ascii :=
  let n := nat_of_ascii c in
  if (((65 <=? n) && (n <=? 90)) ||
      ((192 <=? n) && (n <=? 222) && negb (n =? 215)))%nat
  then ascii_of_nat (n + 32) else c.

(** [s.lower()] *)
Fixpoint lower (s : string) : string :=
  match s with
  | EmptyString => EmptyString
  | String c s' => String (lower_char c) (lower s')
  end.

(** [c.isspace()] below 256: tab, line feed, vertical tab, form feed,
    carriage return, the four separators 28-31, the space, next line (133)
    and the no-break space (160). *)
Definition is_space (c : ascii) : bool :=
  let n := nat_of_ascii c in
  (((9 <=? n) && (n <=? 13)) || ((28 <=? n) && (n <=? 32)) ||
   (n =? 133) || (n =? 160))%nat.

Fixpoint lstrip (s : string) : string :=
  match s with
  | EmptyString => EmptyString
  | String c s' => if is_space c then lstrip s' else s
  end.

Fixpoint rstrip (s : string) : string :=
  match s with
  | EmptyString => EmptyString
  | String c s' =>
      match rstrip s' with
      | EmptyString => if is_space c then EmptyString else String c EmptyString
      | r => String c r
      end
  end.

(** [s.strip()] *)
Definition strip (s : string) : string := rstrip (lstrip s).

(** The text before and after the first [sep], when there is one. *)
Fixpoint cut (sep : ascii) (s : string) : option (string * string) :=
  match s with
  | EmptyString => None
  | String c s' =>
      if Ascii.eqb c sep then Some (EmptyString, s')
      else match cut sep s' with
           | Some (a, b) => Some (String c a, b)
           | None => None
           end
  end.

(** [s.split(sep, 1)] *)
Definition split_once (sep : ascii) (s : string) : list string :=
  match cut sep s with
  | Some (a, b) => [a; b]
  | None => [s]
  end.

(** [s.split(sep)] for a one-character separator. *)
Fixpoint split (sep : ascii) (s : string) : list string :=
  match s with
  | EmptyString => [EmptyString]
  | String c s' =>
      if Ascii.eqb c sep then EmptyString :: split sep s'
      else match split sep s' with
           | h :: t => String c h :: t
           | [] => [String c EmptyString]
           end
  end.

(** What a text-mode read makes of the line endings of a file: [\r\n]
    and a lone [\r] are read as [\n]. *)
Fixpoint universal_newlines (s : string) : string :=
  match s with
  | EmptyString => EmptyString
  | String c s' =>
      if Ascii.eqb c (ascii_of_nat 13) then
        match s' with
        | String d s'' =>
            if Ascii.eqb d (ascii_of_nat 10) then String d (universal_newlines s'')
            else String (ascii_of_nat 10) (universal_newlines s')
        | EmptyString => String (ascii_of_nat 10) EmptyString
        end
      else String c (universal_newlines s')
  end.

(** A Python value that is a string or [None], and its truth value. *)
Definition truthy (v : option string) : bool :=
  match v with
  | Some s => negb (String.eqb s "")
  | None => false
  end.

(** [f"{v}"] *)
Definition format (v : option string) : string :=
  match v with
  | Some s => s
  | None => "None"
  end.

Definition sep : ascii := "/"%char.

(** [os.path.join(a, b)] of posixpath. *)
Definition os_path_join (a b : string) : string :=
  if startswith b "/" then b
  else if String.eqb a "" || endswith a "/" then a ++ b
  else a ++ "/" ++ b.

(** [os.path.basename(p)]: what follows the last slash. *)
Definition os_path_basename (p : string) : string :=
  last (split sep p) EmptyString.

(** The exceptions the two scripts can meet, and [str(e)].  Python quotes
    the file name of an OS error with [repr]; plain quotes stand for it
    here (no statement below depends on the text after the colon). *)
Inductive exn : Type :=
| FileNotFoundError (filename : string)
| IsADirectoryError (filename : string)
| NotADirectoryError (filename : string)
| FileExistsError (filename : string)
| PermissionError (filename : string)
| OSError (msg : string)
| UnicodeDecodeError
| EOFError
| IndexError
| TypeError (msg : string)
| APIError (msg : string).

Definition str_exn (e : exn) : string :=
  match e with
  | FileNotFoundError f => "[Errno 2] No such file or directory: '" ++ f ++ "'"
  | IsADirectoryError f => "[Errno 21] Is a directory: '" ++ f ++ "'"
  | NotADirectoryError f => "[Errno 20] Not a directory: '" ++ f ++ "'"
  | FileExistsError f => "[Errno 17] File exists: '" ++ f ++ "'"
  | PermissionError f => "[Errno 13] Permission denied: '" ++ f ++ "'"
  | OSError m => m
  | UnicodeDecodeError => "'utf-8' codec can't decode bytes"
  | EOFError => "EOF when reading a line"
  | IndexError => "list index out of range"
  | TypeError m => m
  | APIError m => m
  end.

End Py.


(** ** create_smart_export.py *)

Module SmartExport.
Import Py.

(** The directory tree below the working directory.  [File (Some s)]: the
    file opens and its bytes decode to [s] (invalid sequences are dropped,
    as [errors='ignore'] asks); [File None]: opening or reading it raises
    (no permission, say). *)
#[warnings="-register-all"]
Inductive node : Type :=
| File (text : option string)
| Dir (entries : list (string * node)).

(** What the run sees of its host: [os.getcwd()], the tree below it, what
    [git rev-parse --short HEAD] prints, and the two [datetime.utcnow()]
    readings, formatted.  Four more fields say what the system refuses, by
    the path handed to the call: the exception that listing a directory
    raises ([listing_error]), that creating a directory raises
    ([mkdir_error]), that opening and writing a file raises ([open_error]),
    and whether the path is a symbolic link ([islink]; the tree shows what
    the link leads to). *)
Record host : Type := {
  cwd : string;
  root_entries : list (string * node);
  git_stdout : string;
  utc_stamp : string;
  utc_iso : string;
  listing_error : string -> option exn;
  mkdir_error : string -> option exn;
  open_error : string -> option exn;
  islink : string -> bool
}.

Definition with_entries (h : host) (es : list (string * node)) : host :=
  {| cwd := cwd h; root_entries := es; git_stdout := git_stdout h;
     utc_stamp := utc_stamp h; utc_iso := utc_iso h;
     listing_error := listing_error h; mkdir_error := mkdir_error h;
     open_error := open_error h; islink := islink h |}.

(** *** Path resolution below the working directory *)

Fixpoint strip_prefix (p s : string) : option string :=
  match p with
  | EmptyString => Some s
  | String a p' =>
      match s with
      | String b s' => if Ascii.eqb a b then strip_prefix p' s' else None
      | EmptyString => None
      end
  end.

(** The part of [path] below [base], when [path] is [base] or lies under
    it.  Paths outside the working directory are not part of the model. *)
Definition relative_to (base path : string) : option string :=
  match strip_prefix base path with
  | Some rest =>
      if String.eqb base "" || endswith base "/" ||
         String.eqb rest "" || startswith rest "/"
      then Some rest else None
  | None => None
  end.

(** Empty and [.] components are skipped; the scripts never build [..]. *)
Definition components (rel : string) : list string :=
  filter (fun c => negb (String.eqb c "" || String.eqb c ".")) (split sep rel).

Fixpoint find_entry (name : string) (es : list (string * node)) : option node :=
  match es with
  | [] => None
  | (n, x) :: r => if String.eqb n name then Some x else find_entry name r
  end.

Fixpoint lookup (n : node) (cs : list string) : option node :=
  match cs with
  | [] => Some n
  | c :: r =>
      match n with
      | Dir es =>
          match find_entry c es with
          | Some m => lookup m r
          | None => None
          end
      | File _ => None
      end
  end.

Definition stat (h : host) (path : string) : option node :=
  match relative_to (cwd h) path with
  | Some rel => lookup (Dir (root_entries h)) (components rel)
  | None => None
  end.

Definition os_path_exists (h : host) (path : string) : bool :=
  match stat h path with Some _ => true | None => false end.

Definition os_path_isdir (h : host) (path : string) : bool :=
  match stat h path with Some (Dir _) => true | _ => false end.

Definition os_listdir (h : host) (path : string) : exn + list string :=
  match stat h path with
  | Some (Dir es) =>
      match listing_error h path with
      | Some e => inl e
      | None => inr (map fst es)
      end
  | Some (File _) => inl (NotADirectoryError path)
  | None => inl (FileNotFoundError path)
  end.

(** *** [os.makedirs(path, exist_ok=True)] *)

Fixpoint replace_entry (name : string) (x : node) (es : list (string * node))
  : list (string * node) :=
  match es with
  | [] => []
  | (n, y) :: r =>
      if String.eqb n name then (n, x) :: r else (n, y) :: replace_entry name x r
  end.

(** [None] when a component exists and is not a directory. *)
Fixpoint mkdirs (cs : list string) (n : node) : option node :=
  match n with
  | File _ => None
  | Dir es =>
      match cs with
      | [] => Some n
      | c :: r =>
          match find_entry c es with
          | Some m =>
              match mkdirs r m with
              | Some m' => Some (Dir (replace_entry c m' es))
              | None => None
              end
          | None =>
              match mkdirs r (Dir []) with
              | Some m' => Some (Dir (es ++ [(c, m')]))
              | None => None
              end
          end
      end
  end.

(** Nothing is created when the directory is there; when something has to
    be created the system may refuse ([mkdir_error]). *)
Definition os_makedirs (h : host) (path : string) : exn + host :=
  match stat h path, mkdir_error h path with
  | None, Some e => inl e
  | _, _ =>
      match relative_to (cwd h) path with
      | Some rel =>
          match mkdirs (components rel) (Dir (root_entries h)) with
          | Some (Dir es) => inr (with_entries h es)
          | _ => inl (match stat h path with
                      | Some (File _) => FileExistsError path
                      | _ => NotADirectoryError path
                      end)
          end
      | None => inl (PermissionError path)
      end
  end.

(** The exception that [with open(path, 'w') as f: json.dump(..., f)]
    raises, if it does: a directory at the path and a missing parent are
    seen in the tree, the rest is the system's refusal. *)
Definition open_w_error (h : host) (path : string) : option exn :=
  match relative_to (cwd h) path with
  | Some rel =>
      let cs := components rel in
      match lookup (Dir (root_entries h)) cs with
      | Some (Dir _) => Some (IsADirectoryError path)
      | Some (File _) => open_error h path
      | None =>
          match lookup (Dir (root_entries h)) (removelast cs) with
          | Some (Dir _) => open_error h path
          | _ => Some (FileNotFoundError path)
          end
      end
  | None => Some (PermissionError path)
  end.

(** *** [os.walk(top)], top down *)

Definition dirnames (es : list (string * node)) : list string :=
  map fst (filter (fun e => match snd e with Dir _ => true | File _ => false end) es).

Definition filenames (es : list (string * node)) : list string :=
  map fst (filter (fun e => match snd e with Dir _ => false | File _ => true end) es).

(** A directory that cannot be listed yields nothing ([onerror] is not
    set), and a sub-directory that is a symbolic link is named in the
    listing of its parent but not entered ([followlinks] is not set). *)
Fixpoint walk (h : host) (top : string) (n : node) {struct n}
  : list (string * list string * list string) :=
  match n with
  | File _ => []
  | Dir es =>
      match listing_error h top with
      | Some _ => []
      | None =>
          (top, dirnames es, filenames es) ::
          (fix below (l : list (string * node)) :=
             match l with
             | [] => []
             | e :: r =>
                 ((if islink h (os_path_join top (fst e)) then []
                   else walk h (os_path_join top (fst e)) (snd e)) ++ below r)%list
             end) es
      end
  end.

Definition os_walk (h : host) (top : string)
  : list (string * list string * list string) :=
  match stat h top with
  | Some n => walk h top n
  | None => []
  end.

(** The walk from [top] gets down the names [ds]: [top] and every directory
    on the way can be listed, and none below [top] is a symbolic link. *)
Fixpoint walkable (h : host) (top : string) (ds : list string) {struct ds} : bool :=
  match listing_error h top with
  | Some _ => false
  | None =>
      match ds with
      | [] => true
      | c :: r =>
          negb (islink h (os_path_join top c)) && walkable h (os_path_join top c) r
      end
  end.

(** Entry names of a real directory contain no slash. *)
Fixpoint wf_node (n : node) : bool :=
  match n with
  | File _ => true
  | Dir es =>
      (fix all (l : list (string * node)) :=
         match l with
         | [] => true
         | e :: r => negb (contains "/" (fst e)) && wf_node (snd e) && all r
         end) es
  end.

Definition wf_host (h : host) : bool := wf_node (Dir (root_entries h)).

(** *** The export document *)

Record metadata : Type := {
  export_type : string;
  export_date : string;
  project : string;
  exported_from : string;
  git_commit : string;
  package_contents : list string
}.

(** One [{"file_name", "file_path", "content"}] dictionary; [content] is a
    Python value, [None] when it is [None]. *)
Record document : Type := {
  file_name : string;
  file_path : string;
  content : option string
}.

Record package : Type := {
  meta : metadata;
  handover_documents : list document;
  project_plans : list document;
  key_files : list document;
  source_code_inventory : list string
}.

(** How a run ends: an exception leaves [create_smart_export], or the
    package is assembled and the write of the output file is attempted
    ([write_error] is what the final [except] prints, if anything). *)
Inductive outcome : Type :=
| Aborted (e : exn)
| Completed (final_package : package) (write_error : option exn).

Definition plan_names : list string := ["Projectplan.md"; "Nockchainprojectplan.md"].

Definition key_file_names : list string :=
  ["README.md"; "CLAUDE.md"; "package.json"; "docker-compose.yml"].

Definition source_code_extensions : list string :=
  [".ts"; ".js"; ".rs"; ".css"; ".sh"; ".py"].

(** The helper [get_content]: the text of the file, [None] on any exception. *)
Definition get_content (h : host) (file_path : string) : option string :=
  match stat h file_path with
  | Some (File (Some s)) => Some s
  | _ => None
  end.

(** [[{...} for p in paths if get_content(p)]] *)
Definition documents (h : host) (paths : list string) : list document :=
  map (fun p => {| file_name := os_path_basename p; file_path := p;
                   content := get_content h p |})
      (filter (fun p => truthy (get_content h p)) paths).

(** [[os.path.join(target_dir, p) for p in names
      if os.path.exists(os.path.join(target_dir, p))]] *)
Definition existing (h : host) (target_dir : string) (names : list string)
  : list string :=
  map (os_path_join target_dir)
      (filter (fun p => os_path_exists h (os_path_join target_dir p)) names).

(** Line 37: the markdown files directly inside the handover directory. *)
Definition handover_listing (h : host) (handover_path : string)
  : exn + list string :=
  if os_path_isdir h handover_path then
    match os_listdir h handover_path with
    | inr names =>
        inr (map (os_path_join handover_path)
                 (filter (fun f => endswith f ".md") names))
    | inl e => inl e
    end
  else inr [].

Definition skipped (root : string) : bool :=
  contains ".git" root || contains "node_modules" root || contains "exports" root.

Definition is_source_code (file : string) : bool :=
  existsb (fun ext => endswith file ext) source_code_extensions.

(** Lines 56-61: the loop over [os.walk(target_dir)]. *)
Definition inventory_of (walked : list (string * list string * list string))
  : list string :=
  flat_map (fun '(root, _, files) =>
              if skipped root then []
              else map (os_path_join root) (filter is_source_code files))
           walked.

Definition create_smart_export (h : host) : outcome :=
  let target_dir := cwd h in
  let export_dir := os_path_join target_dir "exports" in
  let timestamp := utc_stamp h in
  let output_file :=
    os_path_join export_dir ("nockchain_smart_export_" ++ timestamp ++ ".json") in
  let handover_path := os_path_join target_dir "handover" in
  let plan_paths := existing h target_dir plan_names in
  let key_file_paths := existing h target_dir key_file_names in
  match os_makedirs h export_dir with
  | inl e => Aborted e
  | inr h1 =>
      let git_commit := strip (git_stdout h1) in
      match handover_listing h1 handover_path with
      | inl e => Aborted e
      | inr handover_files =>
          let final_package :=
            {| meta :=
                 {| export_type := "complete_client_package";
                    export_date := utc_iso h1 ++ "Z";
                    project := "NOCKCHAIN";
                    exported_from := "Lightning AI Environment";
                    git_commit := git_commit;
                    package_contents :=
                      ["handover_documents"; "project_plans"; "key_files";
                       "source_code_inventory"] |};
               handover_documents := documents h1 handover_files;
               project_plans := documents h1 plan_paths;
               key_files := documents h1 key_file_paths;
               source_code_inventory := inventory_of (os_walk h1 target_dir) |} in
          Completed final_package (open_w_error h1 output_file)
      end
  end.

(** *** Vocabulary of the statements *)

Definition export_dir (h : host) : string := os_path_join (cwd h) "exports".

Definition handover_path (h : host) : string := os_path_join (cwd h) "handover".

Definition output_file (h : host) : string :=
  os_path_join (export_dir h) ("nockchain_smart_export_" ++ utc_stamp h ++ ".json").

(** The records of the three content-bearing buckets. *)
Definition content_documents (pkg : package) : list document :=
  (handover_documents pkg ++ project_plans pkg ++ key_files pkg)%list.

(** The names of the directories on the way to [p]. *)
Definition dir_components (p : string) : list string := removelast (split sep p).

(** The endings the content-bearing buckets select by. *)
Definition document_endings : list string :=
  (".md" :: plan_names ++ key_file_names)%list.

(** "Whenever the handover directory is missing the run completes with an
    empty [handover_documents]", read literally. *)
Definition handover_absent_always_completes : Prop :=
  forall h : host,
    os_path_exists h (handover_path h) = false ->
    exists pkg we,
      create_smart_export h = Completed pkg we /\ handover_documents pkg = [].

(** *** Sample project roots *)

Definition sample_tree : list (string * node) :=
  [ ("README.md", File (Some "# Nockchain"));
    ("CLAUDE.md", File (Some ""));
    ("package.json", File None);
    ("Projectplan.md", Dir []);
    ("handover", Dir [ ("day1.md", File (Some "notes")); ("empty.md", File (Some ""));
                       ("locked.md", File None); ("todo.txt", File (Some "x")) ]);
    ("src", Dir [ ("main.ts", File (Some "let x = 1")); ("notes.md", File (Some "n"));
                  ("exports", Dir [ ("gen.js", File (Some "")) ]) ]);
    (".git", Dir [ ("hook.ts", File (Some "")); ("objects", Dir [ ("a.py", File None) ]) ]);
    ("node_modules", Dir [ ("lib.js", File (Some "")) ]);
    ("build.sh", File (Some "make")) ].

Definition sample_host : host :=
  {| cwd := "/home/dev/nock"; root_entries := sample_tree;
     git_stdout := "1a2b3c4
"; utc_stamp := "20250101_120000"; utc_iso := "2025-01-01T12:00:00.000001";
     listing_error := fun _ => None; mkdir_error := fun _ => None;
     open_error := fun _ => None; islink := fun _ => false |}.

(** The same project checked out below a directory whose name holds a marker. *)
Definition marked_host : host :=
  {| cwd := "/srv/exports_tool/nock"; root_entries := sample_tree;
     git_stdout := ""; utc_stamp := "20250101_120000"; utc_iso := "2025-01-01T12:00:00";
     listing_error := fun _ => None; mkdir_error := fun _ => None;
     open_error := fun _ => None; islink := fun _ => false |}.

(** A root without a handover directory in which [exports] is a regular file. *)
Definition blocked_host : host :=
  {| cwd := "/home/dev/nock";
     root_entries := [ ("README.md", File (Some "# Nockchain")); ("exports", File (Some "")) ];
     git_stdout := ""; utc_stamp := "20250101_120000"; utc_iso := "2025-01-01T12:00:00";
     listing_error := fun _ => None; mkdir_error := fun _ => None;
     open_error := fun _ => None; islink := fun _ => false |}.

(** The tree with every file made unreadable: same names, same shape. *)
Fixpoint blank (n : node) : node :=
  match n with
  | File _ => File None
  | Dir es =>
      Dir ((fix each (l : list (string * node)) :=
              match l with
              | [] => []
              | e :: r => (fst e, blank (snd e)) :: each r
              end) es)
  end.

Definition blank_entries (es : list (string * node)) : list (string * node) :=
  map (fun e => (fst e, blank (snd e))) es.

(** The name of the output file inside the export directory. *)
Definition output_name (h : host) : string :=
  "nockchain_smart_export_" ++ utc_stamp h ++ ".json".

(** A root whose export directory already holds a directory named like the
    output file. *)
Definition clashing_host : host :=
  {| cwd := "/home/dev/nock";
     root_entries :=
       [ ("README.md", File (Some "# Nockchain"));
         ("exports", Dir [ ("nockchain_smart_export_20250101_120000.json", Dir []) ]) ];
     git_stdout := ""; utc_stamp := "20250101_120000"; utc_iso := "2025-01-01T12:00:00";
     listing_error := fun _ => None; mkdir_error := fun _ => None;
     open_error := fun _ => None; islink := fun _ => false |}.

(** A project whose handover directory exists and cannot be listed. *)
Definition locked_host : host :=
  {| cwd := "/home/dev/nock"; root_entries := sample_tree;
     git_stdout := ""; utc_stamp := "20250101_120000"; utc_iso := "2025-01-01T12:00:00";
     listing_error := fun p =>
       if String.eqb p "/home/dev/nock/handover" then Some (PermissionError p) else None;
     mkdir_error := fun _ => None;
     open_error := fun _ => None; islink := fun _ => false |}.

(** A root with neither a handover nor an export directory. *)
Definition bare_host : host :=
  {| cwd := "/home/dev/nock";
     root_entries := [ ("README.md", File (Some "# Nockchain"));
                       ("src", Dir [ ("main.ts", File (Some "let x = 1")) ]) ];
     git_stdout := ""; utc_stamp := "20250101_120000"; utc_iso := "2025-01-01T12:00:00";
     listing_error := fun _ => None; mkdir_error := fun _ => None;
     open_error := fun _ => None; islink := fun _ => false |}.

End SmartExport.

(** ** kimi_chat.py

    The chat loop reads a line, strips it and hands it to [get_response];
    the functions it calls are modelled here over an explicit world. *)

Module KimiChat.
Import Py.

(** What the operating system has at a path: a directory, or a regular file
    whose text-mode read gives a string or raises. *)
Inductive fnode : Type :=
| Directory
| Regular (data : exn + string).

(** The keyword arguments of [client.chat.completions.create]. *)
Record request : Type := {
  req_model : string;
  req_messages : list (string * string);
  req_max_tokens : nat;
  req_temperature : string
}.

(** The world the relay runs in.  [fs_at] and [wdeny] are indexed by the path
    string handed to the system call: what is there, and the exception that
    opening it for writing raises (missing parent directory, no
    permission), if any.  [write_fault p s] is the exception that writing
    [s] to the file opened at [p] raises, if any (the text cannot be
    encoded, the disk is full), with what the file reads as afterwards.
    [alias q p] says that [q] names the file at [p] too (another spelling
    of the path, a link).
    [stdin] holds the lines still to be typed, [shown] the prompts [input]
    has displayed, [api] the provider's answer to a request (the [content]
    of each returned choice) and [requests] the calls made so far. *)
Record world : Type := {
  fs_at : string -> option fnode;
  wdeny : string -> option exn;
  write_fault : string -> string -> option (exn * string);
  alias : string -> string -> bool;
  stdin : list string;
  shown : list string;
  api : request -> exn + list (option string);
  requests : list request
}.

(** The module-level globals set up at start. *)
Record config : Type := {
  PROJECT_DIR : string;
  model : string
}.

(** *** State and exceptions *)

Inductive result (A : Type) : Type :=
| Returned (a : A)
| Raised (e : exn).
Arguments Returned {A} a.
Arguments Raised {A} e.

Definition M (A : Type) : Type := world -> result A * world.

Definition ret {A : Type} (a : A) : M A := fun w => (Returned a, w).

Definition raise {A : Type} (e : exn) : M A := fun w => (Raised e, w).

Definition bind {A B : Type} (m : M A) (k : A -> M B) : M B :=
  fun w =>
    match m w with
    | (Returned a, w') => k a w'
    | (Raised e, w') => (Raised e, w')
    end.

(** [try: body except Exception as e: handler] *)
Definition try_except {A : Type} (body : M A) (handler : exn -> M A) : M A :=
  fun w =>
    match body w with
    | (Returned a, w') => (Returned a, w')
    | (Raised e, w') => handler e w'
    end.

Notation "x <- m ;; k" := (bind m (fun x => k))
  (at level 61, m at next level, right associativity).
Notation "m ;;; k" := (bind m (fun _ => k))
  (at level 61, right associativity).

(** *** The calls into the system *)

(** The world in which the file at [p], under every spelling, reads as [s]. *)
Definition set_file (w : world) (p s : string) : world :=
  {| fs_at := fun q => if String.eqb q p || alias w q p
                       then Some (Regular (inr s)) else fs_at w q;
     wdeny := wdeny w; write_fault := write_fault w; alias := alias w;
     stdin := stdin w; shown := shown w;
     api := api w; requests := requests w |}.

Definition os_path_exists (p : string) : M bool :=
  fun w => (Returned (match fs_at w p with Some _ => true | None => false end), w).

(** [with open(p, 'r') as f: f.read()] *)
Definition open_read (p : string) : M string :=
  fun w =>
    match fs_at w p with
    | Some (Regular (inr s)) => (Returned s, w)
    | Some (Regular (inl e)) => (Raised e, w)
    | Some Directory => (Raised (IsADirectoryError p), w)
    | None => (Raised (FileNotFoundError p), w)
    end.

(** [with open(p, 'w') as f: f.write(content)]: opening truncates the file;
    writing [None] then raises, and writing a string may raise too, leaving
    what the fault says; a string that was written reads back with its line
    endings as a text-mode read gives them. *)
Definition open_write (p : string) (content : option string) : M unit :=
  fun w =>
    match fs_at w p with
    | Some Directory => (Raised (IsADirectoryError p), w)
    | _ =>
        match wdeny w p with
        | Some e => (Raised e, w)
        | None =>
            match content with
            | Some s =>
                match write_fault w p s with
                | Some (e, residue) => (Raised e, set_file w p residue)
                | None => (Returned tt, set_file w p (universal_newlines s))
                end
            | None => (Raised (TypeError "write() argument must be str, not None"),
                       set_file w p "")
            end
        end
    end.

(** The world after [input] has shown [msg] and consumed one line. *)
Definition prompted (w : world) (msg : string) : world :=
  {| fs_at := fs_at w; wdeny := wdeny w; write_fault := write_fault w;
     alias := alias w; stdin := tl (stdin w);
     shown := (shown w ++ [msg])%list; api := api w; requests := requests w |}.

(** [input(msg)]; an interrupt from the keyboard, which is no [Exception],
    is outside the model. *)
Definition input (msg : string) : M string :=
  fun w =>
    match stdin w with
    | line :: _ => (Returned line, prompted w msg)
    | [] => (Raised EOFError, prompted w msg)
    end.

(** [client.chat.completions.create(...)] *)
Definition chat_completions_create (rq : request) : M (list (option string)) :=
  fun w =>
    let w' := {| fs_at := fs_at w; wdeny := wdeny w;
                 write_fault := write_fault w; alias := alias w;
                 stdin := stdin w; shown := shown w; api := api w;
                 requests := (requests w ++ [rq])%list |} in
    match api w rq with
    | inr choices => (Returned choices, w')
    | inl e => (Raised e, w')
    end.

(** [response.choices[0].message.content] *)
Definition first_choice (choices : list (option string)) : M (option string) :=
  match choices with
  | c :: _ => ret c
  | [] => raise IndexError
  end.

Definition nl : string := String (ascii_of_nat 10) EmptyString.

(** *** The script's functions *)

Section Relay.
Variable cfg : config.

Definition user_request (text : string) : request :=
  {| req_model := model cfg; req_messages := [("user", text)];
     req_max_tokens := 4096; req_temperature := "0.7" |}.

Definition read_file (file_path : string) : M string :=
  let full_path := os_path_join (PROJECT_DIR cfg) file_path in
  try_except (open_read full_path)
             (fun e => ret ("Error reading: " ++ str_exn e)).

Definition write_file (file_path : string) (content : option string) : M string :=
  let full_path := os_path_join (PROJECT_DIR cfg) file_path in
  let store := open_write full_path content ;;; ret ("Wrote to " ++ file_path) in
  try_except
    (present <- os_path_exists full_path ;;
     if present then
       answer <- input ("Overwrite " ++ file_path ++ "? (y/n): ") ;;
       if negb (String.eqb (lower answer) "y") then ret "Cancelled" else store
     else store)
    (fun e => ret ("Error writing: " ++ str_exn e)).

Definition edit_prompt (content instruction : string) : string :=
  "Original: " ++ content ++ nl ++ "Edit per: " ++ instruction ++ nl ++
  "Output full updated code only.".

Definition get_response (prompt : string) : M (option string) :=
  try_except
    (if startswith (lower prompt) "read " then
       let file_path := strip (drop 5 prompt) in
       r <- read_file file_path ;; ret (Some r)
     else if startswith (lower prompt) "write " then
       match split_once " " (drop 6 prompt) with
       | [file_path; content] =>
           r <- write_file file_path (Some content) ;; ret (Some r)
       | _ => ret (Some "Usage: write <file> <content>")
       end
     else if startswith (lower prompt) "edit " then
       match split_once " " (drop 5 prompt) with
       | [file_path; instruction] =>
           content <- read_file file_path ;;
           if contains "Error" content then ret (Some content)
           else
             response <- chat_completions_create
                           (user_request (edit_prompt content instruction)) ;;
             new_content <- first_choice response ;;
             r <- write_file file_path new_content ;;
             ret (Some (r ++ nl ++ "New content:" ++ nl ++ format new_content))
       | _ => ret (Some "Usage: edit <file> <instruction>")
       end
     else
       response <- chat_completions_create (user_request prompt) ;;
       first_choice response)
    (fun e => ret (Some ("Error: " ++ str_exn e))).

End Relay.

(** *** Start-up (lines 5 to 24) *)

(** The client object built at start: [Groq(api_key=...)] or
    [OpenAI(api_key=..., base_url=...)]. *)
Inductive client : Type :=
| Groq (api_key : string)
| OpenAI (api_key base_url : string).

(** How the module-level code ends: the globals [backend], [client] and
    [model] are set, or [ValueError(msg)] is raised. *)
Inductive startup : Type :=
| Ready (backend : string) (c : client) (model_name : string)
| ValueError (msg : string).

(** [environ name] is [os.environ.get(name)]. *)
Definition start (environ : string -> option string) : startup :=
  let backend := match environ "KIMI_BACKEND" with Some b => b | None => "groq" end in
  if String.eqb backend "groq" then
    let api_key := environ "GROQ_API_KEY" in
    match api_key with
    | Some k =>
        if truthy api_key then Ready backend (Groq k) "llama3-70b-8192"
        else ValueError "Set GROQ_API_KEY env var"
    | None => ValueError "Set GROQ_API_KEY env var"
    end
  else if String.eqb backend "moonshot" then
    let api_key := environ "MOONSHOT_API_KEY" in
    match api_key with
    | Some k =>
        if truthy api_key
        then Ready backend (OpenAI k "https://api.moonshot.ai/v1") "kimi-k2-instruct"
        else ValueError "Set MOONSHOT_API_KEY env var"
    | None => ValueError "Set MOONSHOT_API_KEY env var"
    end
  else ValueError "Invalid backend".

(** *** The chat loop (lines 88 to 93) *)

(** The world after the request [rq] has been made. *)
Definition asked (w : world) (rq : request) : world :=
  {| fs_at := fs_at w; wdeny := wdeny w; write_fault := write_fault w;
     alias := alias w; stdin := stdin w; shown := shown w;
     api := api w; requests := (requests w ++ [rq])%list |}.

(** How the loop ends: [break] on the exit command, an exception that leaves
    it, or the model's fuel running out. *)
Inductive loop_end : Type :=
| Exited
| Crashed (e : exn)
| OutOfFuel.

(** What [print("\nResponse:\n", response)] writes. *)
Definition response_text (response : option string) : string :=
  nl ++ "Response:" ++ nl ++ " " ++ format response ++ nl.

(** The loop, one iteration per unit of fuel; the texts printed are
    collected in order. *)
Fixpoint chat_loop (cfg : config) (fuel : nat) (w : world)
  : loop_end * list string * world :=
  match fuel with
  | O => (OutOfFuel, [], w)
  | S fuel' =>
      match input "Prompt: " w with
      | (Raised e, w1) => (Crashed e, [], w1)
      | (Returned line, w1) =>
          let prompt := strip line in
          if String.eqb (lower prompt) "exit" then (Exited, [], w1)
          else
            match get_response cfg prompt w1 with
            | (Raised e, w2) => (Crashed e, [], w2)
            | (Returned response, w2) =>
                match chat_loop cfg fuel' w2 with
                | (ending, printed, w3) =>
                    (ending, response_text response :: printed, w3)
                end
            end
      end
  end.

(** *** Sample sessions *)

Definition sample_cfg : config :=
  {| PROJECT_DIR := "/home/dev/nock"; model := "llama3-70b-8192" |}.

(** A project holding [app.py] and [log.py]; the provider answers every
    request with one choice; the user types [answer] at the first prompt. *)
Definition editing_world (answer : string) : world :=
  {| fs_at := fun p =>
       if String.eqb p "/home/dev/nock" then Some Directory
       else if String.eqb p "/home/dev/nock/app.py" then Some (Regular (inr "print(1)"))
       else if String.eqb p "/home/dev/nock/log.py" then Some (Regular (inr "print('Error')"))
       else None;
     wdeny := fun p =>
       if String.eqb p "/home/dev/nock/nodir/x.txt" then Some (FileNotFoundError p)
       else None;
     write_fault := fun _ _ => None;
     alias := fun _ _ => false;
     stdin := [answer];
     shown := [];
     api := fun _ => inr [Some "print(2)"];
     requests := [] |}.

(** A session in which [lines] are typed; nothing refuses a write, and the
    provider fails, returns no choice or returns an empty message when the
    request mentions [boom], [void] or [null]. *)
Definition typing_world (lines : list string) : world :=
  {| fs_at := fun p =>
       if String.eqb p "/home/dev/nock" then Some Directory
       else if String.eqb p "/home/dev/nock/app.py" then Some (Regular (inr "print(1)"))
       else None;
     wdeny := fun _ => None;
     write_fault := fun _ _ => None;
     alias := fun _ _ => false;
     stdin := lines;
     shown := [];
     api := fun rq =>
       match req_messages rq with
       | [(_, text)] =>
           if contains "boom" text then inl (APIError "rate limit")
           else if contains "void" text then inr []
           else if contains "null" text then inr [None]
           else inr [Some "print(2)"]
       | _ => inr []
       end;
     requests := [] |}.

(** *** Vocabulary of the statements *)

Definition full_path (cfg : config) (file_path : string) : string :=
  os_path_join (PROJECT_DIR cfg) file_path.

(** "An edit of a readable file sends its content with the instruction and
    writes the reply back to the file", read literally; the file is looked
    at as a text-mode read shows it. *)
Definition edit_always_writes_reply : Prop :=
  forall (cfg : config) (w : world) (path instruction content reply : string)
         (others : list (option string)),
    contains " " path = false ->
    fs_at w (full_path cfg path) = Some (Regular (inr content)) ->
    api w (user_request cfg (edit_prompt content instruction)) = inr (Some reply :: others) ->
    let w' := snd (get_response cfg ("edit " ++ path ++ " " ++ instruction) w) in
    requests w' = (requests w ++ [user_request cfg (edit_prompt content instruction)])%list /\
    fs_at w' (full_path cfg path) = Some (Regular (inr (universal_newlines reply))).

(** "A write to a path at which nothing exists stores the content without a
    prompt", read literally. *)
Definition write_to_new_always_stores : Prop :=
  forall (cfg : config) (w : world) (path content : string),
    contains " " path = false ->
    fs_at w (full_path cfg path) = None ->
    let w' := snd (get_response cfg ("write " ++ path ++ " " ++ content) w) in
    fs_at w' (full_path cfg path) = Some (Regular (inr (universal_newlines content))) /\
    shown w' = shown w /\ stdin w' = stdin w.

(** The session of [typing_world] on a system where [./app.py] is another
    spelling of [app.py]. *)
Definition linked_world (lines : list string) : world :=
  {| fs_at := fun p =>
       if String.eqb p "/home/dev/nock" then Some Directory
       else if String.eqb p "/home/dev/nock/app.py" || String.eqb p "/home/dev/nock/./app.py"
            then Some (Regular (inr "print(1)"))
       else None;
     wdeny := fun _ => None;
     write_fault := fun _ _ => None;
     alias := fun q p =>
       (String.eqb q "/home/dev/nock/app.py" && String.eqb p "/home/dev/nock/./app.py") ||
       (String.eqb q "/home/dev/nock/./app.py" && String.eqb p "/home/dev/nock/app.py");
     stdin := lines;
     shown := [];
     api := fun _ => inr [Some "print(2)"];
     requests := [] |}.


End KimiChat.

(** * Facts about the string primitives *)

Section StringFacts.
Import Py.

Lemma startswith_app (p t : string) : startswith (p ++ t) p = true.
Proof.
  induction p as [|a p IH]; simpl; [reflexivity|].
  now rewrite Ascii.eqb_refl.
Qed.

Lemma startswith_spec (s p : string) :
  startswith s p = true <-> exists t, s = p ++ t.
Proof.
  split.
  - revert s; induction p as [|a p IH]; intros s H; simpl in *.
    + now exists s.
    + destruct s as [|b s]; [discriminate|].
      apply andb_true_iff in H as [Hab Hp].
      apply Ascii.eqb_eq in Hab; subst b.
      destruct (IH _ Hp) as [t ->]. now exists t.
  - intros [t ->]. apply startswith_app.
Qed.

Lemma startswith_more (s p t : string) :
  startswith s p = true -> startswith (s ++ t) p = true.
Proof.
  intros H. apply startswith_spec in H as [u ->].
  apply startswith_spec. exists (u ++ t).
  clear. induction p as [|a p IH]; simpl; [reflexivity | now rewrite IH].
Qed.

Lemma startswith_empty (p : string) : startswith "" p = true -> p = "".
Proof. destruct p; simpl; [reflexivity | discriminate]. Qed.

Lemma append_assoc (a b c : string) : (a ++ b) ++ c = a ++ (b ++ c).
Proof. induction a as [|x a IH]; simpl; [reflexivity | now rewrite IH]. Qed.

Lemma append_empty_r (a : string) : a ++ "" = a.
Proof. induction a as [|x a IH]; simpl; [reflexivity | now rewrite IH]. Qed.

Lemma endswith_refl (s : string) : endswith s s = true.
Proof. destruct s; cbn [endswith]; rewrite String.eqb_refl; reflexivity. Qed.

Lemma endswith_app (a b : string) : endswith (a ++ b) b = true.
Proof.
  induction a as [|x a IH]; cbn [endswith append].
  - apply endswith_refl.
  - rewrite IH. apply orb_true_r.
Qed.

Lemma endswith_spec (s suf : string) :
  endswith s suf = true <-> exists pre, s = pre ++ suf.
Proof.
  split.
  - induction s as [|x s IH]; cbn [endswith append]; intros H.
    + rewrite orb_false_r in H. apply String.eqb_eq in H. now exists "".
    + apply orb_true_iff in H as [H|H].
      * apply String.eqb_eq in H. now exists "".
      * destruct (IH H) as [pre ->]. now exists (String x pre).
  - intros [pre ->]. apply endswith_app.
Qed.

Lemma endswith_trans (s a b : string) :
  endswith s a = true -> endswith a b = true -> endswith s b = true.
Proof.
  intros H1 H2. apply endswith_spec in H1 as [p ->], H2 as [q ->].
  rewrite <- append_assoc. apply endswith_app.
Qed.

(** Two suffixes of one string: one is a suffix of the other. *)
Lemma endswith_comparable (s a b : string) :
  endswith s a = true -> endswith s b = true ->
  endswith a b = true \/ endswith b a = true.
Proof.
  induction s as [|x s IH]; cbn [endswith append]; intros Ha Hb.
  - rewrite orb_false_r in Ha, Hb.
    apply String.eqb_eq in Ha, Hb; subst. left; reflexivity.
  - apply orb_true_iff in Ha as [Ha|Ha]; apply orb_true_iff in Hb as [Hb|Hb].
    + apply String.eqb_eq in Ha, Hb; subst. left; apply endswith_refl.
    + apply String.eqb_eq in Ha; subst a. left. cbn [endswith append]. rewrite Hb. apply orb_true_r.
    + apply String.eqb_eq in Hb; subst b. right. cbn [endswith append]. rewrite Ha. apply orb_true_r.
    + now apply IH.
Qed.

Lemma contains_cons (m : string) (c : ascii) (s : string) :
  contains m s = true -> contains m (String c s) = true.
Proof. intros H. simpl. rewrite H. apply orb_true_r. Qed.

Lemma contains_app_r (m a b : string) :
  contains m b = true -> contains m (a ++ b) = true.
Proof.
  intros H. induction a as [|x a IH]; simpl; [exact H|].
  fold (contains m (a ++ b)). rewrite IH. apply orb_true_r.
Qed.

Lemma contains_app_l (m a b : string) :
  contains m a = true -> contains m (a ++ b) = true.
Proof.
  induction a as [|x a IH]; intros H.
  - simpl in H. rewrite orb_false_r in H. apply startswith_empty in H; subst m.
    destruct b; reflexivity.
  - change (startswith (String x a) m || contains m a = true) in H.
    change (startswith (String x a ++ b) m || contains m (a ++ b) = true).
    apply orb_true_iff in H as [H|H].
    + now rewrite (startswith_more _ _ b H).
    + rewrite (IH H). apply orb_true_r.
Qed.

Lemma contains_prefix (m s : string) : startswith s m = true -> contains m s = true.
Proof. intros H. destruct s; simpl in *; rewrite H; reflexivity. Qed.

(** A string without the separator holds no occurrence of it at the front
    or further on. *)
Lemma no_sep_cons (c : ascii) (x : ascii) (s : string) :
  contains (String c "") (String x s) = false ->
  Ascii.eqb c x = false /\ contains (String c "") s = false.
Proof.
  simpl. intros H. apply orb_false_iff in H as [H1 H2].
  split; [|exact H2].
  destruct (Ascii.eqb c x); [|reflexivity].
  destruct s; discriminate.
Qed.

Lemma eqb_ascii_sym (a b : ascii) : Ascii.eqb a b = Ascii.eqb b a.
Proof.
  destruct (Ascii.eqb a b) eqn:E.
  - apply Ascii.eqb_eq in E; subst. now rewrite Ascii.eqb_refl.
  - symmetry. apply Ascii.eqb_neq. apply Ascii.eqb_neq in E. congruence.
Qed.

Lemma split_nonempty (c : ascii) (s : string) : split c s <> [].
Proof.
  destruct s as [|x s]; simpl; [discriminate|].
  destruct (Ascii.eqb x c); [discriminate|].
  destruct (split c s); discriminate.
Qed.

Lemma split_app_sep (c : ascii) (a b : string) :
  split c (a ++ String c b) = (split c a ++ split c b)%list.
Proof.
  induction a as [|x a IH]; simpl.
  - now rewrite Ascii.eqb_refl.
  - destruct (Ascii.eqb x c); rewrite IH; [reflexivity|].
    destruct (split c a) as [|h t] eqn:E; [now apply split_nonempty in E|].
    reflexivity.
Qed.

Lemma split_no_sep (c : ascii) (s : string) :
  contains (String c "") s = false -> split c s = [s].
Proof.
  induction s as [|x s IH]; intros H; [reflexivity|].
  apply no_sep_cons in H as [Hx Hs]. simpl.
  rewrite eqb_ascii_sym, Hx, (IH Hs). reflexivity.
Qed.

Lemma split_head_prefix (c : ascii) (s h : string) (t : list string) :
  split c s = h :: t -> startswith s h = true.
Proof.
  revert h t. induction s as [|x s IH]; simpl; intros h t H.
  - injection H as <- _. reflexivity.
  - destruct (Ascii.eqb x c).
    + injection H as <- _. reflexivity.
    + destruct (split c s) as [|h' t'] eqn:E; [now apply split_nonempty in E|].
      injection H as <- _. simpl. rewrite Ascii.eqb_refl. simpl. eapply IH; reflexivity.
Qed.

(** Every component of a path is a substring of it. *)
Lemma in_split_contains (c : ascii) (s d : string) :
  In d (split c s) -> contains d s = true.
Proof.
  induction s as [|x s IH]; simpl; intros H.
  - destruct H as [<-|[]]. reflexivity.
  - destruct (Ascii.eqb x c).
    + destruct H as [<-|H]; [reflexivity|].
      fold (contains d s). rewrite (IH H). apply orb_true_r.
    + destruct (split c s) as [|h t] eqn:E; [now apply split_nonempty in E|].
      destruct H as [<-|H].
      * simpl. rewrite Ascii.eqb_refl. simpl.
        now rewrite (split_head_prefix _ _ _ _ E).
      * rewrite IH; [apply orb_true_r | now right].
Qed.

Lemma cut_at_first (c : ascii) (a b : string) :
  contains (String c "") a = false -> cut c (a ++ String c b) = Some (a, b).
Proof.
  induction a as [|x a IH]; intros H; simpl.
  - now rewrite Ascii.eqb_refl.
  - apply no_sep_cons in H as [Hx Ha].
    rewrite eqb_ascii_sym, Hx, (IH Ha). reflexivity.
Qed.

(** [os.path.join]: the result is one of three shapes. *)
Lemma os_path_join_cases (a b : string) :
  startswith b "/" = false ->
  os_path_join a b = a ++ b /\ (a = "" \/ exists a', a = a' ++ "/") \/
  os_path_join a b = a ++ "/" ++ b.
Proof.
  intros Hb. unfold os_path_join. rewrite Hb.
  destruct (String.eqb a "") eqn:E1; simpl.
  - left. split; [reflexivity|]. left. now apply String.eqb_eq.
  - destruct (endswith a "/") eqn:E2; [|now right].
    left. split; [reflexivity|]. right. now apply endswith_spec.
Qed.

Lemma os_path_join_endswith (a b suf : string) :
  endswith b suf = true -> endswith (os_path_join a b) suf = true.
Proof.
  intros H. unfold os_path_join.
  destruct (startswith b "/"); [exact H|].
  apply endswith_spec in H as [pre ->].
  destruct (String.eqb a "" || endswith a "/").
  - rewrite <- append_assoc. apply endswith_app.
  - change (a ++ "/" ++ pre ++ suf) with (a ++ ("/" ++ pre) ++ suf).
    rewrite <- append_assoc. apply endswith_app.
Qed.

Lemma no_slash_not_absolute (name : string) :
  contains "/" name = false -> startswith name "/" = false.
Proof.
  intros H. destruct name as [|x s]; [reflexivity|].
  apply no_sep_cons in H as [H _]. cbn [startswith]. rewrite H. reflexivity.
Qed.

Lemma os_path_join_extends (a name : string) :
  contains "/" name = false -> exists t, os_path_join a name = a ++ t.
Proof.
  intros H. apply no_slash_not_absolute in H.
  destruct (os_path_join_cases a name H) as [[-> _] | ->]; eauto.
Qed.

End StringFacts.

(** * Facts about the export assembler *)

Section ExportFacts.
Import Py SmartExport.

Lemma node_tree_ind (P : node -> Prop) :
  (forall t, P (File t)) ->
  (forall es, Forall (fun e => P (snd e)) es -> P (Dir es)) ->
  forall n, P n.
Proof.
  intros HF HD.
  exact (fix self (n : node) : P n :=
           match n with
           | File t => HF t
           | Dir es =>
               HD es ((fix all (l : list (string * node))
                         : Forall (fun e => P (snd e)) l :=
                         match l with
                         | [] => Forall_nil _
                         | e :: r => Forall_cons e (self (snd e)) (all r)
                         end) es)
           end).
Qed.

Lemma walk_dir (h : host) (top : string) (es : list (string * node)) :
  walk h top (Dir es) =
  match listing_error h top with
  | Some _ => []
  | None =>
      (top, dirnames es, filenames es) ::
      flat_map (fun e => if islink h (os_path_join top (fst e)) then []
                         else walk h (os_path_join top (fst e)) (snd e)) es
  end.
Proof.
  reflexivity.
Qed.

Lemma wf_dir (es : list (string * node)) :
  wf_node (Dir es) =
  forallb (fun e => negb (contains "/" (fst e)) && wf_node (snd e)) es.
Proof.
  reflexivity.
Qed.

Lemma in_filenames (f : string) (es : list (string * node)) :
  In f (filenames es) -> exists e, In e es /\ fst e = f.
Proof.
  unfold filenames. intros H. apply in_map_iff in H as [e [He Hin]].
  apply filter_In in Hin as [Hin _]. now exists e.
Qed.

(** Every directory [os.walk] visits has a path that extends [top], and the
    file names it reports hold no slash. *)
Lemma walk_visits (h : host) (n : node) :
  forall top, wf_node n = true ->
  forall root ds fs, In (root, ds, fs) (walk h top n) ->
    (exists t, root = top ++ t) /\ (forall f, In f fs -> contains "/" f = false).
Proof.
  induction n as [t|es IH] using node_tree_ind; intros top Hwf root ds fs Hin.
  - destruct Hin.
  - rewrite walk_dir in Hin. rewrite wf_dir in Hwf.
    destruct (listing_error h top); [destruct Hin|].
    rewrite forallb_forall in Hwf. rewrite Forall_forall in IH.
    destruct Hin as [Heq|Hin].
    + injection Heq as <- <- <-. split.
      * exists "". now rewrite append_empty_r.
      * intros f Hf. apply in_filenames in Hf as [e [He <-]].
        specialize (Hwf e He). apply andb_true_iff in Hwf as [Hn _].
        now apply negb_true_iff in Hn.
    + apply in_flat_map in Hin as [e [He Hin]].
      destruct (islink h (os_path_join top (fst e))); [destruct Hin|].
      specialize (Hwf e He). apply andb_true_iff in Hwf as [Hn Hc].
      apply negb_true_iff in Hn.
      destruct (IH e He _ Hc _ _ _ Hin) as [[t ->] Hfs].
      split; [|exact Hfs].
      destruct (os_path_join_extends top (fst e) Hn) as [u ->].
      exists (u ++ t). apply append_assoc.
Qed.

Lemma wf_lookup (cs : list string) :
  forall n m, wf_node n = true -> lookup n cs = Some m -> wf_node m = true.
Proof.
  induction cs as [|c r IH]; intros n m Hwf H; simpl in H.
  - now injection H as <-.
  - destruct n as [t|es]; [discriminate|].
    destruct (find_entry c es) as [x|] eqn:E; [|discriminate].
    apply (IH x m); [|exact H].
    rewrite wf_dir in Hwf. clear H IH.
    induction es as [|[k y] es IHes]; simpl in *; [discriminate|].
    apply andb_true_iff in Hwf as [Hky Hes].
    destruct (String.eqb k c).
    + injection E as <-. now apply andb_true_iff in Hky.
    + now apply IHes.
Qed.

Lemma inventory_in (walked : list (string * list string * list string)) (p : string) :
  In p (inventory_of walked) ->
  exists root ds fs file,
    In (root, ds, fs) walked /\ skipped root = false /\ In file fs /\
    is_source_code file = true /\ p = os_path_join root file.
Proof.
  unfold inventory_of. intros H.
  apply in_flat_map in H as [[[root ds] fs] [Hw Hp]].
  destruct (skipped root) eqn:Hs; [destruct Hp|].
  apply in_map_iff in Hp as [file [<- Hf]].
  apply filter_In in Hf as [Hf Hsrc].
  now exists root, ds, fs, file.
Qed.

Lemma inventory_all_skipped (walked : list (string * list string * list string)) :
  (forall root ds fs, In (root, ds, fs) walked -> skipped root = true) ->
  inventory_of walked = [].
Proof.
  unfold inventory_of. induction walked as [|[[root ds] fs] r IH]; intros H.
  - reflexivity.
  - cbn [flat_map]. rewrite (H root ds fs) by now left.
    apply IH. intros; eapply H; right; eassumption.
Qed.

Lemma skipped_app (a t : string) : skipped a = true -> skipped (a ++ t) = true.
Proof.
  unfold skipped. intros H.
  apply orb_true_iff in H as [H|H]; [apply orb_true_iff in H as [H|H]|];
    rewrite (contains_app_l _ _ t H); rewrite ?orb_true_r; reflexivity.
Qed.

Lemma skipped_marker (d root : string) :
  In d [".git"; "node_modules"; "exports"] -> contains d root = true ->
  skipped root = true.
Proof.
  unfold skipped.
  intros [<-|[<-|[<-|[]]]] H; rewrite H; rewrite ?orb_true_r; reflexivity.
Qed.

(** The directories on the way to [join(root, file)] are named by parts of
    [root]. *)
Lemma dir_components_join (root file d : string) :
  contains "/" file = false ->
  In d (dir_components (os_path_join root file)) -> contains d root = true.
Proof.
  intros Hf. unfold dir_components.
  pose proof (split_no_sep sep file Hf) as Hsp.
  destruct (os_path_join_cases root file (no_slash_not_absolute _ Hf))
    as [[-> [->|[a ->]]] | ->].
  - cbn [append]. rewrite Hsp. intros [].
  - rewrite append_assoc. cbn [append].
    change (String "/" file) with (String sep file).
    rewrite split_app_sep, Hsp, removelast_last.
    intros H. apply contains_app_l. eapply in_split_contains; exact H.
  - cbn [append]. change (String "/" file) with (String sep file).
    rewrite split_app_sep, Hsp, removelast_last.
    apply in_split_contains.
Qed.

Lemma below_exports_dir (base p : string) :
  startswith p (os_path_join base "exports" ++ "/") = true ->
  In "exports" (dir_components p).
Proof.
  intros H. apply startswith_spec in H as [t ->].
  assert (Hmid : forall a,
             In "exports" (dir_components (a ++ String sep ("exports" ++ String sep t)))).
  { intros a. unfold dir_components.
    rewrite split_app_sep, split_app_sep.
    rewrite removelast_app by (intros E; apply app_eq_nil in E as [E _]; discriminate).
    apply in_or_app. right.
    rewrite removelast_app by apply split_nonempty.
    apply in_or_app. left. now left. }
  destruct (os_path_join_cases base "exports" eq_refl) as [[-> [->|[a ->]]] | ->].
  - unfold dir_components. cbn [append].
    change ("exports" ++ String "/" t) with ("exports" ++ String sep t).
    change (split sep (String "e" (String "x" (String "p" (String "o" (String "r"
              (String "t" (String "s" (String "/" t)))))))))
      with (split sep ("exports" ++ String sep t)).
    rewrite split_app_sep.
    rewrite removelast_app by apply split_nonempty. now left.
  - specialize (Hmid a). rewrite !append_assoc. exact Hmid.
  - specialize (Hmid base). rewrite !append_assoc. exact Hmid.
Qed.

(** *** Resolution of the paths the assembler builds *)

Lemma strip_prefix_app (p t : string) : strip_prefix p (p ++ t) = Some t.
Proof.
  induction p as [|a p IH]; cbn [strip_prefix append]; [reflexivity|].
  now rewrite Ascii.eqb_refl.
Qed.

Lemma relative_to_child (base name : string) :
  startswith name "/" = false ->
  exists rel,
    relative_to base (os_path_join base name) = Some rel /\
    components rel = components name.
Proof.
  intros Hn. unfold os_path_join, relative_to. rewrite Hn.
  destruct (String.eqb base "" || endswith base "/") eqn:E.
  - rewrite strip_prefix_app. cbn [orb]. now exists name.
  - rewrite strip_prefix_app. cbn [append orb].
    exists (String "/" name). split; reflexivity.
Qed.

Lemma stat_child (h : host) (name : string) :
  startswith name "/" = false ->
  stat h (os_path_join (cwd h) name) =
  lookup (Dir (root_entries h)) (components name).
Proof.
  intros Hn. unfold stat.
  destruct (relative_to_child (cwd h) name Hn) as [rel [-> ->]]. reflexivity.
Qed.

Lemma find_entry_app (c d : string) (m : node) (es : list (string * node)) :
  find_entry c (es ++ [(d, m)]) =
  match find_entry c es with
  | Some x => Some x
  | None => if String.eqb d c then Some m else None
  end.
Proof.
  induction es as [|[k y] es IH]; cbn [find_entry app]; [reflexivity|].
  destruct (String.eqb k c); [reflexivity | exact IH].
Qed.

Lemma replace_entry_same (c : string) (m : node) (es : list (string * node)) :
  find_entry c es = Some m -> replace_entry c m es = es.
Proof.
  induction es as [|[k y] es IH]; cbn [find_entry replace_entry]; [discriminate|].
  destruct (String.eqb k c).
  - now intros [= ->].
  - intros H. now rewrite (IH H).
Qed.

Lemma with_entries_same (h : host) : with_entries h (root_entries h) = h.
Proof. destruct h; reflexivity. Qed.

(** What [os.makedirs] does with the export directory, by what the root
    holds under the name [exports]. *)
Lemma makedirs_exports_cases (h : host) :
  os_makedirs h (export_dir h) =
  match find_entry "exports" (root_entries h) with
  | Some (File _) => inl (FileExistsError (export_dir h))
  | Some (Dir _) => inr h
  | None =>
      match mkdir_error h (export_dir h) with
      | Some e => inl e
      | None => inr (with_entries h (root_entries h ++ [("exports", Dir [])]))
      end
  end.
Proof.
  unfold os_makedirs, export_dir.
  rewrite (stat_child h "exports" eq_refl).
  destruct (relative_to_child (cwd h) "exports" eq_refl) as [rel [-> ->]].
  change (components "exports") with ["exports"].
  cbn [mkdirs lookup].
  destruct (find_entry "exports" (root_entries h)) as [[t|es]|] eqn:E.
  - reflexivity.
  - now rewrite (replace_entry_same _ _ _ E), with_entries_same.
  - now destruct (mkdir_error h (os_path_join (cwd h) "exports")).
Qed.

(** Creating the export directory leaves the tree as it is or appends an
    empty directory [exports] to the root. *)
Lemma makedirs_exports (h h1 : host) :
  os_makedirs h (export_dir h) = inr h1 ->
  h1 = h \/
  (find_entry "exports" (root_entries h) = None /\
   h1 = with_entries h (root_entries h ++ [("exports", Dir [])])).
Proof.
  rewrite makedirs_exports_cases.
  destruct (find_entry "exports" (root_entries h)) as [[t|es]|] eqn:E.
  - discriminate.
  - intros [= <-]. now left.
  - destruct (mkdir_error h (export_dir h)); [discriminate|].
    intros [= <-]. right. now split.
Qed.

Lemma makedirs_fails_on_file (h : host) (t : option string) :
  find_entry "exports" (root_entries h) = Some (File t) ->
  os_makedirs h (export_dir h) = inl (FileExistsError (export_dir h)).
Proof. intros E. now rewrite makedirs_exports_cases, E. Qed.

Lemma makedirs_succeeds (h : host) :
  (forall t, find_entry "exports" (root_entries h) <> Some (File t)) ->
  mkdir_error h (export_dir h) = None ->
  exists h1, os_makedirs h (export_dir h) = inr h1.
Proof.
  intros Hnf Hok. rewrite makedirs_exports_cases, Hok.
  destruct (find_entry "exports" (root_entries h)) as [[t|es]|] eqn:E; eauto.
  now destruct (Hnf t).
Qed.

Lemma lookup_appended_dir (es : list (string * node)) (d : string) (cs : list string) :
  find_entry d es = None ->
  match lookup (Dir (es ++ [(d, Dir [])])) cs with
  | Some (File t) => lookup (Dir es) cs = Some (File t)
  | _ => forall t, lookup (Dir es) cs <> Some (File t)
  end.
Proof.
  intros Hd. destruct cs as [|c r]; cbn [lookup]; [discriminate|].
  rewrite find_entry_app.
  destruct (find_entry c es) as [x|] eqn:E.
  - destruct (lookup x r) as [[t|es']|]; [reflexivity| |]; discriminate.
  - destruct (String.eqb d c); [|discriminate].
    destruct r as [|c' r']; cbn [lookup find_entry]; discriminate.
Qed.

Lemma get_content_after_makedirs (h h1 : host) (p : string) :
  os_makedirs h (export_dir h) = inr h1 ->
  get_content h1 p = get_content h p.
Proof.
  intros H. apply makedirs_exports in H as [->|[Hd ->]]; [reflexivity|].
  unfold get_content, stat. cbn [cwd root_entries with_entries].
  destruct (relative_to (cwd h) p) as [rel|]; [|reflexivity].
  pose proof (lookup_appended_dir (root_entries h) "exports" (components rel) Hd) as L.
  destruct (lookup (Dir (root_entries h ++ [("exports", Dir [])])) (components rel))
    as [[t|es']|].
  - now rewrite L.
  - destruct (lookup (Dir (root_entries h)) (components rel)) as [[[s|]|]|];
      try reflexivity. now destruct (L (Some s)).
  - destruct (lookup (Dir (root_entries h)) (components rel)) as [[[s|]|]|];
      try reflexivity. now destruct (L (Some s)).
Qed.

Lemma wf_after_makedirs (h h1 : host) :
  os_makedirs h (export_dir h) = inr h1 -> wf_host h = true -> wf_host h1 = true.
Proof.
  intros H Hwf. apply makedirs_exports in H as [->|[_ ->]]; [exact Hwf|].
  unfold wf_host in *. cbn [root_entries with_entries].
  rewrite wf_dir in *. rewrite forallb_app, Hwf. reflexivity.
Qed.

Lemma handover_absent_after_makedirs (h h1 : host) :
  os_makedirs h (export_dir h) = inr h1 ->
  os_path_exists h (handover_path h) = false ->
  os_path_isdir h1 (handover_path h) = false.
Proof.
  intros H Habs.
  assert (Hc : cwd h1 = cwd h)
    by (apply makedirs_exports in H as [->|[_ ->]]; reflexivity).
  unfold os_path_exists, os_path_isdir, handover_path in *.
  rewrite (stat_child h "handover" eq_refl) in Habs.
  rewrite <- Hc. rewrite (stat_child h1 "handover" eq_refl).
  change (components "handover") with ["handover"] in *.
  cbn [lookup] in *.
  apply makedirs_exports in H as [->|[_ ->]].
  - destruct (find_entry "handover" (root_entries h)); [discriminate | reflexivity].
  - cbn [root_entries with_entries]. rewrite find_entry_app.
    destruct (find_entry "handover" (root_entries h)); [discriminate | reflexivity].
Qed.

(** Line 37 case by case: the listing of the handover directory is the
    one call in it that can raise. *)
Lemma handover_listing_cases (h : host) (hp : string) :
  handover_listing h hp =
  match stat h hp with
  | Some (Dir es) =>
      match listing_error h hp with
      | Some e => inl e
      | None => inr (map (os_path_join hp) (filter (fun f => endswith f ".md") (map fst es)))
      end
  | _ => inr []
  end.
Proof.
  unfold handover_listing, os_path_isdir, os_listdir.
  destruct (stat h hp) as [[t|es]|]; try reflexivity.
  now destruct (listing_error h hp).
Qed.

Lemma listing_error_after_makedirs (h h1 : host) :
  os_makedirs h (export_dir h) = inr h1 -> listing_error h1 = listing_error h.
Proof. intros H. now apply makedirs_exports in H as [->|[_ ->]]. Qed.

Lemma documents_in (h : host) (paths : list string) (d : document) :
  In d (documents h paths) ->
  In (file_path d) paths /\ content d = get_content h (file_path d) /\
  truthy (get_content h (file_path d)) = true.
Proof.
  unfold documents. intros H.
  apply in_map_iff in H as [p [<- Hp]].
  apply filter_In in Hp as [Hp Ht]. now cbn [file_path content].
Qed.

(** What a completed run has computed. *)
Lemma completed_run (h : host) (pkg : package) (we : option exn) :
  create_smart_export h = Completed pkg we ->
  exists h1 handover_files,
    os_makedirs h (export_dir h) = inr h1 /\
    handover_listing h1 (handover_path h) = inr handover_files /\
    handover_documents pkg = documents h1 handover_files /\
    project_plans pkg = documents h1 (existing h (cwd h) plan_names) /\
    key_files pkg = documents h1 (existing h (cwd h) key_file_names) /\
    source_code_inventory pkg = inventory_of (os_walk h1 (cwd h)) /\
    we = open_w_error h1 (output_file h).
Proof.
  unfold create_smart_export.
  fold (export_dir h). fold (handover_path h).
  destruct (os_makedirs h (export_dir h)) as [e|h1] eqn:Hm; [discriminate|].
  destruct (handover_listing h1 (handover_path h)) as [e|hf] eqn:Hl; [discriminate|].
  intros [= <- <-]. exists h1, hf. repeat split; try reflexivity; assumption.
Qed.

(** A run is stopped by one of its two unguarded calls only: the creation
    of the export directory, or the listing of the handover directory. *)
Lemma aborted_run (h : host) (e : exn) :
  create_smart_export h = Aborted e ->
  os_makedirs h (export_dir h) = inl e \/
  (exists h1, os_makedirs h (export_dir h) = inr h1 /\
              os_path_isdir h1 (handover_path h) = true) /\
  listing_error h (handover_path h) = Some e.
Proof.
  unfold create_smart_export. fold (export_dir h). fold (handover_path h).
  destruct (os_makedirs h (export_dir h)) as [e'|h1] eqn:Hm; [intros [= ->]; now left|].
  rewrite handover_listing_cases, (listing_error_after_makedirs h h1 Hm).
  destruct (stat h1 (handover_path h)) as [[t|es]|] eqn:Hs; try discriminate.
  destruct (listing_error h (handover_path h)) as [e'|]; [|discriminate].
  intros [= ->]. right. split; [|reflexivity].
  exists h1. split; [reflexivity|]. unfold os_path_isdir. now rewrite Hs.
Qed.

Lemma run_after_makedirs (h h1 : host) (files : list string) :
  os_makedirs h (export_dir h) = inr h1 ->
  handover_listing h1 (handover_path h) = inr files ->
  exists pkg, create_smart_export h = Completed pkg (open_w_error h1 (output_file h)).
Proof.
  intros Hm Hl. unfold create_smart_export. fold (export_dir h). fold (handover_path h).
  rewrite Hm, Hl. eauto.
Qed.

(** The paths of the three buckets end the way their selection says. *)
Lemma existing_ending (h : host) (names : list string) (p : string) :
  In p (existing h (cwd h) names) -> exists n, In n names /\ endswith p n = true.
Proof.
  unfold existing. intros H.
  apply in_map_iff in H as [n [<- Hn]]. apply filter_In in Hn as [Hn _].
  exists n. split; [exact Hn|]. apply os_path_join_endswith, endswith_refl.
Qed.

Lemma handover_listing_ending (h : host) (hp : string) (files : list string) (p : string) :
  handover_listing h hp = inr files -> In p files -> endswith p ".md" = true.
Proof.
  unfold handover_listing.
  destruct (os_path_isdir h hp).
  - destruct (os_listdir h hp) as [e|names]; [discriminate|].
    intros [= <-] Hp. apply in_map_iff in Hp as [f [<- Hf]].
    apply filter_In in Hf as [_ Hf]. now apply os_path_join_endswith.
  - intros [= <-] [].
Qed.

Lemma document_path_ending (h : host) (pkg : package) (we : option exn) (d : document) :
  create_smart_export h = Completed pkg we ->
  In d (content_documents pkg) ->
  exists suf, In suf document_endings /\ endswith (file_path d) suf = true.
Proof.
  intros Hrun Hd. unfold content_documents in Hd.
  destruct (completed_run _ _ _ Hrun) as (h1 & hf & _ & Hl & E1 & E2 & E3 & _).
  rewrite E1, E2, E3 in Hd. unfold document_endings.
  apply in_app_or in Hd as [Hd|Hd]; [|apply in_app_or in Hd as [Hd|Hd]];
    apply documents_in in Hd as [Hd _].
  - exists ".md". split; [now left|]. eapply handover_listing_ending; eassumption.
  - apply existing_ending in Hd as [n [Hn He]]. exists n. split; [|exact He].
    right. apply in_or_app. now left.
  - apply existing_ending in Hd as [n [Hn He]]. exists n. split; [|exact He].
    right. apply in_or_app. now right.
Qed.

Lemma inventory_path (h : host) (pkg : package) (we : option exn) (p : string) :
  create_smart_export h = Completed pkg we ->
  In p (source_code_inventory pkg) ->
  exists h1 n root ds fs file,
    os_makedirs h (export_dir h) = inr h1 /\
    stat h1 (cwd h) = Some n /\ In (root, ds, fs) (walk h1 (cwd h) n) /\
    skipped root = false /\ In file fs /\ is_source_code file = true /\
    p = os_path_join root file.
Proof.
  intros Hrun Hp.
  destruct (completed_run _ _ _ Hrun) as (h1 & hf & Hm & _ & _ & _ & _ & Hinv & _).
  rewrite Hinv in Hp. unfold os_walk in Hp.
  destruct (stat h1 (cwd h)) as [n|] eqn:Hs; [|destruct Hp].
  apply inventory_in in Hp as (root & ds & fs & file & H1 & H2 & H3 & H4 & H5).
  now exists h1, n, root, ds, fs, file.
Qed.

Lemma stat_wf (h : host) (p : string) (n : node) :
  wf_host h = true -> stat h p = Some n -> wf_node n = true.
Proof.
  unfold wf_host, stat. intros Hwf.
  destruct (relative_to (cwd h) p); [|discriminate].
  now apply wf_lookup.
Qed.

End ExportFacts.

(** * The export document *)

Section ExportClaims.
Import Py SmartExport.

(** The scenario of the specification: a readme, a source file and a
    [.git] directory holding an unrelated [.ts] file. *)
Example sample_export :
  exists pkg,
    create_smart_export sample_host = Completed pkg None /\
    map file_path (key_files pkg) = ["/home/dev/nock/README.md"] /\
    map content (key_files pkg) = [Some "# Nockchain"] /\
    map file_name (handover_documents pkg) = ["day1.md"] /\
    project_plans pkg = [] /\
    source_code_inventory pkg = ["/home/dev/nock/build.sh"; "/home/dev/nock/src/main.ts"] /\
    git_commit (meta pkg) = "1a2b3c4".
Proof. eexists. split; [vm_compute; reflexivity|]. repeat split. Qed.

Example blocked_export :
  create_smart_export blocked_host = Aborted (FileExistsError "/home/dev/nock/exports").
Proof. reflexivity. Qed.

Lemma endings_are_not_source_code (suf ext : string) :
  In suf document_endings -> In ext source_code_extensions ->
  endswith suf ext = false /\ endswith ext suf = false.
Proof.
  intros Hs He.
  assert (Hall : forallb (fun s => forallb (fun e =>
                   negb (endswith s e) && negb (endswith e s))
                   source_code_extensions) document_endings = true)
    by (vm_compute; reflexivity).
  rewrite forallb_forall in Hall. specialize (Hall suf Hs).
  rewrite forallb_forall in Hall. specialize (Hall ext He).
  apply andb_true_iff in Hall as [H1 H2].
  now apply negb_true_iff in H1, H2.
Qed.

Lemma inventory_path_extension (h : host) (pkg : package) (we : option exn) (p : string) :
  create_smart_export h = Completed pkg we ->
  In p (source_code_inventory pkg) ->
  exists ext, In ext source_code_extensions /\ endswith p ext = true.
Proof.
  intros Hrun Hp.
  destruct (inventory_path _ _ _ _ Hrun Hp)
    as (h1 & n & root & ds & fs & file & _ & _ & _ & _ & _ & Hsrc & ->).
  unfold is_source_code in Hsrc. apply existsb_exists in Hsrc as [ext [He Hend]].
  exists ext. split; [exact He|]. now apply os_path_join_endswith.
Qed.

(** C2: every path of [source_code_inventory] ends with one of the six
    allow-listed extensions, no directory on the way to it is named [.git],
    [node_modules] or [exports], and in particular it does not lie below the
    export output directory. *)
Theorem inventory_paths_are_source_code
  (h : host) (pkg : package) (we : option exn) (p : string) :
  wf_host h = true ->
  create_smart_export h = Completed pkg we ->
  In p (source_code_inventory pkg) ->
  (exists ext, In ext source_code_extensions /\ endswith p ext = true) /\
  ~ In ".git" (dir_components p) /\
  ~ In "node_modules" (dir_components p) /\
  ~ In "exports" (dir_components p) /\
  startswith p (export_dir h ++ "/") = false.
Proof.
  intros Hwf Hrun Hp.
  split; [eapply inventory_path_extension; eassumption|].
  destruct (inventory_path _ _ _ _ Hrun Hp)
    as (h1 & n & root & ds & fs & file & Hm & Hs & Hw & Hskip & Hf & _ & ->).
  assert (Hn : wf_node n = true)
    by (eapply stat_wf; [eapply wf_after_makedirs|]; eassumption).
  destruct (walk_visits h1 n (cwd h) Hn root ds fs Hw) as [_ Hfiles].
  specialize (Hfiles file Hf).
  assert (Hmark : forall d, In d [".git"; "node_modules"; "exports"] ->
                            ~ In d (dir_components (os_path_join root file))).
  { intros d Hd Hin.
    apply (dir_components_join root file d Hfiles) in Hin.
    rewrite (skipped_marker d root Hd Hin) in Hskip. discriminate. }
  repeat split.
  - apply Hmark. now left.
  - apply Hmark. right. now left.
  - apply Hmark. right. right. now left.
  - destruct (startswith (os_path_join root file) (export_dir h ++ "/")) eqn:E;
      [|reflexivity].
    apply below_exports_dir in E. exfalso. revert E. apply Hmark.
    right. right. now left.
Qed.

Lemma inventory_paths_witness :
  wf_host sample_host = true /\
  (exists ext, In ext source_code_extensions /\
               endswith "/home/dev/nock/src/main.ts" ext = true) /\
  ~ In ".git" (dir_components "/home/dev/nock/src/main.ts") /\
  ~ In "node_modules" (dir_components "/home/dev/nock/src/main.ts") /\
  ~ In "exports" (dir_components "/home/dev/nock/src/main.ts") /\
  startswith "/home/dev/nock/src/main.ts" (export_dir sample_host ++ "/") = false.
Proof.
  split; [reflexivity|].
  eapply (inventory_paths_are_source_code sample_host _ _ "/home/dev/nock/src/main.ts");
    [ reflexivity | vm_compute; reflexivity | cbn; right; left; reflexivity ].
Defined.

(** C3: no path of [source_code_inventory] is the [file_path] of a record of
    [handover_documents], [project_plans] or [key_files]: those paths end
    with [.md] or one of the fixed names, and none of these endings ends
    with an allow-listed extension. *)
Theorem inventory_disjoint_from_documents
  (h : host) (pkg : package) (we : option exn) (p : string) (d : document) :
  create_smart_export h = Completed pkg we ->
  In p (source_code_inventory pkg) ->
  In d (content_documents pkg) ->
  file_path d <> p /\
  (forall suf ext, In suf document_endings -> In ext source_code_extensions ->
                   endswith suf ext = false).
Proof.
  intros Hrun Hp Hd. split.
  - intros Heq.
    destruct (document_path_ending _ _ _ _ Hrun Hd) as [suf [Hsuf Hend]].
    destruct (inventory_path_extension _ _ _ _ Hrun Hp) as [ext [Hext Hend']].
    rewrite Heq in Hend.
    destruct (endings_are_not_source_code suf ext Hsuf Hext) as [N1 N2].
    destruct (endswith_comparable p suf ext Hend Hend') as [C|C]; congruence.
  - intros suf ext Hs He. now destruct (endings_are_not_source_code suf ext Hs He).
Qed.

Lemma inventory_disjoint_witness :
  "/home/dev/nock/README.md" <> "/home/dev/nock/build.sh" /\
  (forall suf ext, In suf document_endings -> In ext source_code_extensions ->
                   endswith suf ext = false).
Proof.
  eapply (inventory_disjoint_from_documents sample_host _ _ "/home/dev/nock/build.sh"
            {| file_name := "README.md"; file_path := "/home/dev/nock/README.md";
               content := Some "# Nockchain" |});
    [ vm_compute; reflexivity | cbn; left; reflexivity | cbn; right; left; reflexivity ].
Defined.

(** C4: every record of [handover_documents], [project_plans] and
    [key_files] carries a [content] that is a string (not [None]), and a
    non-empty one. *)
Theorem documents_have_content
  (h : host) (pkg : package) (we : option exn) (d : document) :
  create_smart_export h = Completed pkg we ->
  In d (content_documents pkg) ->
  exists s, content d = Some s /\ s <> "".
Proof.
  intros Hrun Hd. unfold content_documents in Hd.
  destruct (completed_run _ _ _ Hrun) as (h1 & hf & _ & _ & E1 & E2 & E3 & _).
  rewrite E1, E2, E3 in Hd.
  assert (Hdoc : exists paths, In d (documents h1 paths)).
  { apply in_app_or in Hd as [Hd|Hd]; [|apply in_app_or in Hd as [Hd|Hd]]; eauto. }
  destruct Hdoc as [paths Hdoc].
  apply documents_in in Hdoc as (_ & -> & Ht).
  destruct (get_content h1 (file_path d)) as [s|]; [|discriminate].
  exists s. split; [reflexivity|].
  cbn [truthy] in Ht. apply negb_true_iff in Ht. now apply String.eqb_neq.
Qed.

Lemma documents_have_content_witness :
  exists s, Some "notes" = Some s /\ s <> "".
Proof.
  eapply (documents_have_content sample_host _ _
            {| file_name := "day1.md"; file_path := "/home/dev/nock/handover/day1.md";
               content := Some "notes" |});
    [ vm_compute; reflexivity | cbn; left; reflexivity ].
Defined.

Lemma falsy_content_is_omitted (h h1 : host) (paths : list string) (p : string) (d : document) :
  os_makedirs h (export_dir h) = inr h1 ->
  truthy (get_content h p) = false ->
  In d (documents h1 paths) -> file_path d <> p.
Proof.
  intros Hm Hfalse Hd Heq.
  apply documents_in in Hd as (_ & _ & Ht).
  rewrite Heq, (get_content_after_makedirs _ _ _ Hm) in Ht. congruence.
Qed.

Lemma falsy_content_not_exported
  (h : host) (pkg : package) (we : option exn) (p : string) (d : document) :
  create_smart_export h = Completed pkg we ->
  truthy (get_content h p) = false ->
  In d (content_documents pkg) -> file_path d <> p.
Proof.
  intros Hrun Hfalse Hd. unfold content_documents in Hd.
  destruct (completed_run _ _ _ Hrun) as (h1 & hf & Hm & _ & E1 & E2 & E3 & _).
  rewrite E1, E2, E3 in Hd.
  apply in_app_or in Hd as [Hd|Hd]; [|apply in_app_or in Hd as [Hd|Hd]];
    eapply falsy_content_is_omitted; eassumption.
Qed.

(** C5: a path whose read raises ([get_content] gives [None]) has no record
    in any of the three buckets, and the run goes on: it either completes,
    or it was stopped by one of the two calls that stand outside every
    [try], the creation of the export directory and the listing of the
    handover directory, never by the read of a file. *)
Theorem unreadable_file_is_omitted (h : host) (p : string) :
  get_content h p = None ->
  match create_smart_export h with
  | Completed pkg _ => forall d, In d (content_documents pkg) -> file_path d <> p
  | Aborted e =>
      os_makedirs h (export_dir h) = inl e \/
      listing_error h (handover_path h) = Some e
  end.
Proof.
  intros Hnone.
  destruct (create_smart_export h) as [e|pkg we] eqn:Hrun.
  - apply aborted_run in Hrun as [H|[_ H]]; [now left | now right].
  - intros d Hd. eapply falsy_content_not_exported; try eassumption.
    now rewrite Hnone.
Qed.

Lemma unreadable_file_witness :
  get_content sample_host "/home/dev/nock/handover/locked.md" = None /\
  match create_smart_export sample_host with
  | Completed pkg _ =>
      forall d, In d (content_documents pkg) ->
                file_path d <> "/home/dev/nock/handover/locked.md"
  | Aborted e =>
      os_makedirs sample_host (export_dir sample_host) = inl e \/
      listing_error sample_host (handover_path sample_host) = Some e
  end.
Proof.
  split; [reflexivity|].
  apply (unreadable_file_is_omitted sample_host "/home/dev/nock/handover/locked.md").
  reflexivity.
Defined.

(** C9: a candidate that exists and reads as the empty string has no record
    in [handover_documents], [project_plans] or [key_files]: the filter
    tests the truth value of the content. *)
Theorem empty_file_is_omitted
  (h : host) (pkg : package) (we : option exn) (p : string) (d : document) :
  get_content h p = Some "" ->
  create_smart_export h = Completed pkg we ->
  In d (content_documents pkg) -> file_path d <> p.
Proof.
  intros Hempty Hrun Hd. eapply falsy_content_not_exported; try eassumption.
  now rewrite Hempty.
Qed.

Lemma empty_file_witness :
  get_content sample_host "/home/dev/nock/CLAUDE.md" = Some "" /\
  "/home/dev/nock/README.md" <> "/home/dev/nock/CLAUDE.md".
Proof.
  split; [reflexivity|].
  eapply (empty_file_is_omitted sample_host _ _ "/home/dev/nock/CLAUDE.md"
            {| file_name := "README.md"; file_path := "/home/dev/nock/README.md";
               content := Some "# Nockchain" |});
    [ reflexivity | vm_compute; reflexivity | cbn; right; left; reflexivity ].
Defined.

(** C6, as stated, fails: with a regular file named [exports] in the root
    the creation of the export directory raises and the run stops before any
    document exists. *)
Lemma handover_absent_counterexample : ~ handover_absent_always_completes.
Proof.
  intros H. destruct (H blocked_host eq_refl) as (pkg & we & Hrun & _).
  vm_compute in Hrun. discriminate.
Qed.

(** C6, amended: without a handover directory, and once the export directory
    could be created, the run completes with an empty [handover_documents]
    and reaches the write of the output file. *)
Theorem handover_absent_empty_bucket (h h1 : host) :
  os_path_exists h (handover_path h) = false ->
  os_makedirs h (export_dir h) = inr h1 ->
  exists pkg,
    create_smart_export h = Completed pkg (open_w_error h1 (output_file h)) /\
    handover_documents pkg = [].
Proof.
  intros Habs Hm.
  assert (Hnone : handover_listing h1 (handover_path h) = inr [])
    by (unfold handover_listing;
        now rewrite (handover_absent_after_makedirs h h1 Hm Habs)).
  destruct (run_after_makedirs h h1 [] Hm Hnone) as [pkg Hrun].
  exists pkg. split; [exact Hrun|].
  destruct (completed_run _ _ _ Hrun) as (h1' & hf & Hm' & Hl & -> & _).
  rewrite Hm in Hm'. injection Hm' as <-.
  unfold handover_listing in Hl.
  rewrite (handover_absent_after_makedirs h h1 Hm Habs) in Hl.
  injection Hl as <-. reflexivity.
Qed.

(** C10: when the path of the project root contains [.git], [node_modules]
    or [exports] as a substring, every walked directory is skipped and
    [source_code_inventory] is empty. *)
Theorem marked_root_empty_inventory (h : host) (pkg : package) (we : option exn) :
  wf_host h = true ->
  skipped (cwd h) = true ->
  create_smart_export h = Completed pkg we ->
  source_code_inventory pkg = [].
Proof.
  intros Hwf Hmark Hrun.
  destruct (completed_run _ _ _ Hrun) as (h1 & hf & Hm & _ & _ & _ & _ & -> & _).
  unfold os_walk. destruct (stat h1 (cwd h)) as [n|] eqn:Hs; [|reflexivity].
  assert (Hn : wf_node n = true)
    by (eapply stat_wf; [eapply wf_after_makedirs|]; eassumption).
  apply inventory_all_skipped. intros root ds fs Hin.
  destruct (walk_visits h1 n (cwd h) Hn root ds fs Hin) as [[t ->] _].
  now apply skipped_app.
Qed.

Lemma handover_absent_witness :
  os_path_exists bare_host (handover_path bare_host) = false /\
  exists pkg, create_smart_export bare_host = Completed pkg None /\
              handover_documents pkg = [].
Proof.
  split; [reflexivity|].
  apply (handover_absent_empty_bucket bare_host
           (with_entries bare_host (root_entries bare_host ++ [("exports", Dir [])])));
    reflexivity.
Defined.

Lemma marked_root_witness :
  wf_host marked_host = true /\ skipped (cwd marked_host) = true /\
  forall pkg we, create_smart_export marked_host = Completed pkg we ->
                 source_code_inventory pkg = [].
Proof.
  split; [reflexivity|]. split; [reflexivity|].
  intros pkg we Hrun.
  apply (marked_root_empty_inventory marked_host pkg we); [reflexivity | reflexivity | exact Hrun].
Defined.

End ExportClaims.

(** * The command relay *)

Section RelayClaims.
Import Py KimiChat.

(** [get_response] never lets an exception out. *)
Lemma get_response_returns (cfg : config) (prompt : string) (w : world) :
  exists r, fst (get_response cfg prompt w) = Returned r.
Proof.
  unfold get_response, try_except.
  match goal with |- context [match ?b w with _ => _ end] => destruct (b w) as [[r|e] w'] end.
  - now exists r.
  - eexists. reflexivity.
Qed.

Lemma bind_returned {A B : Type} (m : M A) (k : A -> M B) (w w' : world) (a : A) :
  m w = (Returned a, w') -> bind m k w = k a w'.
Proof. intros H. unfold bind. now rewrite H. Qed.

Lemma try_returned {A : Type} (m : M A) (handler : exn -> M A) (w w' : world) (a : A) :
  m w = (Returned a, w') -> try_except m handler w = (Returned a, w').
Proof. intros H. unfold try_except. now rewrite H. Qed.

(** *** Dispatch on the verb *)

Lemma dispatch_read (rest : string) :
  startswith (lower ("read " ++ rest)) "read " = true.
Proof. reflexivity. Qed.

Lemma dispatch_write (rest : string) :
  startswith (lower ("write " ++ rest)) "read " = false /\
  startswith (lower ("write " ++ rest)) "write " = true.
Proof. split; reflexivity. Qed.

Lemma dispatch_edit (rest : string) :
  startswith (lower ("edit " ++ rest)) "read " = false /\
  startswith (lower ("edit " ++ rest)) "write " = false /\
  startswith (lower ("edit " ++ rest)) "edit " = true.
Proof. repeat split; reflexivity. Qed.

Lemma split_once_first_space (path rest : string) :
  contains " " path = false ->
  split_once " " (path ++ " " ++ rest) = [path; rest].
Proof.
  intros H. unfold split_once.
  change (path ++ " " ++ rest) with (path ++ String " " rest).
  now rewrite (cut_at_first " " path rest H).
Qed.

(** *** [read_file] and [write_file] case by case *)

Lemma read_file_text (cfg : config) (w : world) (path content : string) :
  fs_at w (full_path cfg path) = Some (Regular (inr content)) ->
  read_file cfg path w = (Returned content, w).
Proof.
  intros H. unfold read_file, try_except, open_read.
  fold (full_path cfg path). now rewrite H.
Qed.

Lemma read_file_missing (cfg : config) (w : world) (path : string) :
  fs_at w (full_path cfg path) = None ->
  read_file cfg path w =
    (Returned ("Error reading: " ++ str_exn (FileNotFoundError (full_path cfg path))), w).
Proof.
  intros H. unfold read_file, try_except, open_read.
  fold (full_path cfg path). now rewrite H.
Qed.

Lemma write_file_new (cfg : config) (w : world) (path content : string) :
  fs_at w (full_path cfg path) = None ->
  write_file cfg path (Some content) w =
    match wdeny w (full_path cfg path) with
    | Some e => (Returned ("Error writing: " ++ str_exn e), w)
    | None =>
        match write_fault w (full_path cfg path) content with
        | Some (e, residue) =>
            (Returned ("Error writing: " ++ str_exn e),
             set_file w (full_path cfg path) residue)
        | None =>
            (Returned ("Wrote to " ++ path),
             set_file w (full_path cfg path) (universal_newlines content))
        end
    end.
Proof.
  intros H. unfold write_file, try_except, bind, os_path_exists, open_write, ret.
  fold (full_path cfg path). rewrite H. cbv beta iota. rewrite H.
  destruct (wdeny w (full_path cfg path)); [reflexivity|].
  now destruct (write_fault w (full_path cfg path) content) as [[e residue]|].
Qed.

Lemma write_file_confirmed (cfg : config) (w : world) (path content : string)
      (old : exn + string) (answer : string) (more : list string) :
  fs_at w (full_path cfg path) = Some (Regular old) ->
  stdin w = answer :: more ->
  lower answer = "y" ->
  wdeny w (full_path cfg path) = None ->
  write_fault w (full_path cfg path) content = None ->
  write_file cfg path (Some content) w =
    (Returned ("Wrote to " ++ path),
     set_file (prompted w ("Overwrite " ++ path ++ "? (y/n): ")) (full_path cfg path)
              (universal_newlines content)).
Proof.
  intros Hf Hin Hy Hd Hw.
  unfold write_file, try_except, bind, os_path_exists, input, open_write, ret.
  fold (full_path cfg path). rewrite Hf, Hin, Hy.
  cbn [String.eqb Ascii.eqb Bool.eqb negb andb prompted fs_at wdeny write_fault].
  rewrite Hf, Hd, Hw. reflexivity.
Qed.

Lemma set_file_hit (w : world) (p s : string) :
  fs_at (set_file w p s) p = Some (Regular (inr s)).
Proof. cbn [set_file fs_at]. now rewrite String.eqb_refl. Qed.

Lemma write_file_declined (cfg : config) (w : world) (path : string)
      (content : option string) (old : fnode) (answer : string) (more : list string) :
  fs_at w (full_path cfg path) = Some old ->
  stdin w = answer :: more ->
  lower answer <> "y" ->
  write_file cfg path content w =
    (Returned "Cancelled", prompted w ("Overwrite " ++ path ++ "? (y/n): ")).
Proof.
  intros Hf Hin Hy.
  unfold write_file, try_except, bind, os_path_exists, input, ret.
  fold (full_path cfg path). rewrite Hf, Hin.
  apply String.eqb_neq in Hy. rewrite Hy. reflexivity.
Qed.

Example declined_edit :
  let out := get_response sample_cfg "edit app.py double it" (editing_world "n") in
  fst out = Returned (Some ("Cancelled" ++ nl ++ "New content:" ++ nl ++ "print(2)")) /\
  fs_at (snd out) "/home/dev/nock/app.py" = Some (Regular (inr "print(1)")) /\
  stdin (snd out) = [].
Proof. repeat split. Qed.

(** A readable file whose text holds the word [Error] is taken for a failed
    read: it is returned as it is and no request is sent. *)
Example edit_of_file_mentioning_error :
  let out := get_response sample_cfg "edit log.py rename it" (editing_world "y") in
  fst out = Returned (Some "print('Error')") /\
  requests (snd out) = [] /\ stdin (snd out) = ["y"].
Proof. repeat split. Qed.

Example write_below_missing_directory :
  let out := get_response sample_cfg "write nodir/x.txt hi" (editing_world "y") in
  fst out = Returned (Some "Error writing: [Errno 2] No such file or directory: '/home/dev/nock/nodir/x.txt'") /\
  fs_at (snd out) "/home/dev/nock/nodir/x.txt" = None /\
  shown (snd out) = [].
Proof. repeat split. Qed.

(** C8: [read <path>] for a path at which nothing exists returns a string
    that starts with [Error reading: ] (so it contains the error marker);
    no exception leaves [get_response] and the world is untouched. *)
Theorem read_missing_reports_error (cfg : config) (w : world) (path : string) :
  fs_at w (full_path cfg (strip path)) = None ->
  get_response cfg ("read " ++ path) w =
    (Returned (Some ("Error reading: " ++
                     str_exn (FileNotFoundError (full_path cfg (strip path))))), w) /\
  contains "Error" ("Error reading: " ++
                    str_exn (FileNotFoundError (full_path cfg (strip path)))) = true.
Proof.
  intros Habs. split; [|reflexivity].
  unfold get_response. rewrite dispatch_read.
  change (drop 5 ("read " ++ path)) with path.
  apply try_returned.
  now rewrite (bind_returned _ _ _ _ _ (read_file_missing cfg w _ Habs)).
Qed.

Lemma read_missing_witness :
  fs_at (editing_world "y") (full_path sample_cfg (strip "missing.txt")) = None /\
  get_response sample_cfg "read missing.txt" (editing_world "y") =
    (Returned (Some "Error reading: [Errno 2] No such file or directory: '/home/dev/nock/missing.txt'"),
     editing_world "y").
Proof.
  split; [reflexivity|].
  apply (read_missing_reports_error sample_cfg (editing_world "y") "missing.txt").
  reflexivity.
Defined.

(** C7, as stated, fails: a write below a directory that does not exist
    finds no target, asks nothing, and stores nothing. *)
Lemma write_to_new_counterexample : ~ write_to_new_always_stores.
Proof.
  intros H.
  destruct (H sample_cfg (editing_world "y") "nodir/x.txt" "hi" eq_refl eq_refl)
    as [Hfile _].
  vm_compute in Hfile. discriminate.
Qed.

(** C7, amended: [write <path> <content>] with nothing at the target never
    prompts.  When the target can be opened and written, the file then
    holds [content] (it reads back as [content], line endings as text mode
    reads them) and [Wrote to <path>] is returned; when the open raises,
    [Error writing: ...] is returned and nothing is at the path; when the
    write raises after the open, [Error writing: ...] is returned and the
    file is left as the fault left it. *)
Theorem write_to_new_file_is_unprompted
  (cfg : config) (w : world) (path content : string) :
  contains " " path = false ->
  fs_at w (full_path cfg path) = None ->
  let out := get_response cfg ("write " ++ path ++ " " ++ content) w in
  shown (snd out) = shown w /\ stdin (snd out) = stdin w /\
  match wdeny w (full_path cfg path) with
  | Some e =>
      fst out = Returned (Some ("Error writing: " ++ str_exn e)) /\
      fs_at (snd out) (full_path cfg path) = None
  | None =>
      match write_fault w (full_path cfg path) content with
      | Some (e, residue) =>
          fst out = Returned (Some ("Error writing: " ++ str_exn e)) /\
          fs_at (snd out) (full_path cfg path) = Some (Regular (inr residue))
      | None =>
          fst out = Returned (Some ("Wrote to " ++ path)) /\
          fs_at (snd out) (full_path cfg path)
            = Some (Regular (inr (universal_newlines content)))
      end
  end.
Proof.
  intros Hpath Habs out.
  assert (E : out =
              (let (r, w') := write_file cfg path (Some content) w in
               match r with
               | Returned a => (Returned (Some a), w')
               | Raised e => (Returned (Some ("Error: " ++ str_exn e)), w')
               end)).
  { subst out. unfold get_response.
    destruct (dispatch_write (path ++ " " ++ content)) as [-> ->].
    change (drop 6 ("write " ++ path ++ " " ++ content)) with (path ++ " " ++ content).
    rewrite (split_once_first_space path content Hpath).
    unfold try_except, bind, ret.
    now destruct (write_file cfg path (Some content) w) as [[a|e] w']. }
  rewrite E. clear E out.
  rewrite (write_file_new cfg w path content Habs).
  destruct (wdeny w (full_path cfg path)) as [e|]; cbn [fst snd].
  - repeat split; try reflexivity. exact Habs.
  - destruct (write_fault w (full_path cfg path) content) as [[e residue]|];
      cbn [fst snd]; rewrite set_file_hit; repeat split; reflexivity.
Qed.

Lemma write_to_new_witness :
  contains " " "out.txt" = false /\
  fs_at (editing_world "y") (full_path sample_cfg "out.txt") = None /\
  let out := get_response sample_cfg "write out.txt hello" (editing_world "y") in
  shown (snd out) = [] /\ stdin (snd out) = ["y"] /\
  fst out = Returned (Some "Wrote to out.txt") /\
  fs_at (snd out) "/home/dev/nock/out.txt" = Some (Regular (inr "hello")).
Proof.
  split; [reflexivity|]. split; [reflexivity|].
  apply (write_to_new_file_is_unprompted sample_cfg (editing_world "y") "out.txt" "hello");
    reflexivity.
Defined.

(** C1, as stated, fails: the overwrite question is asked before the reply
    is written, and on any answer but [y] the file keeps its old content. *)
Lemma edit_counterexample : ~ edit_always_writes_reply.
Proof.
  intros H.
  destruct (H sample_cfg (editing_world "n") "app.py" "double it" "print(1)" "print(2)" []
              eq_refl eq_refl eq_refl) as [_ Hfile].
  vm_compute in Hfile. discriminate.
Qed.

(** C1, amended: [edit <path> <instruction>] on a file that reads as
    [content], where [content] does not contain [Error], the provider
    returns a first choice [reply], the user answers the overwrite question
    with [y] or [Y], and neither the open for writing nor the write raises:
    one request holding the content and the instruction is sent, and the
    reply is written back as it is: the file then reads back as [reply],
    line endings as text mode reads them. *)
Theorem edit_writes_reply_when_confirmed
  (cfg : config) (w : world) (path instruction content reply answer : string)
  (others : list (option string)) (more : list string) :
  contains " " path = false ->
  fs_at w (full_path cfg path) = Some (Regular (inr content)) ->
  contains "Error" content = false ->
  api w (user_request cfg (edit_prompt content instruction)) = inr (Some reply :: others) ->
  stdin w = answer :: more ->
  lower answer = "y" ->
  wdeny w (full_path cfg path) = None ->
  write_fault w (full_path cfg path) reply = None ->
  let out := get_response cfg ("edit " ++ path ++ " " ++ instruction) w in
  fst out = Returned (Some ("Wrote to " ++ path ++ nl ++ "New content:" ++ nl ++ reply)) /\
  requests (snd out) =
    (requests w ++ [user_request cfg (edit_prompt content instruction)])%list /\
  fs_at (snd out) (full_path cfg path) = Some (Regular (inr (universal_newlines reply))) /\
  shown (snd out) = (shown w ++ [("Overwrite " ++ path ++ "? (y/n): ")%string])%list.
Proof.
  intros Hpath Hfile Hclean Hapi Hin Hy Hd Hw out.
  set (rq := user_request cfg (edit_prompt content instruction)) in *.
  assert (E : out =
              (Returned (Some (("Wrote to " ++ path) ++ nl ++ "New content:" ++ nl ++ reply)),
               set_file (prompted (asked w rq) ("Overwrite " ++ path ++ "? (y/n): "))
                        (full_path cfg path) (universal_newlines reply))).
  { subst out. unfold get_response.
    destruct (dispatch_edit (path ++ " " ++ instruction)) as (-> & -> & ->).
    change (drop 5 ("edit " ++ path ++ " " ++ instruction)) with (path ++ " " ++ instruction).
    rewrite (split_once_first_space path instruction Hpath).
    apply try_returned.
    rewrite (bind_returned _ _ _ _ _ (read_file_text cfg w path content Hfile)).
    rewrite Hclean. fold rq.
    assert (Hcall : chat_completions_create rq w
                    = (Returned (Some reply :: others), asked w rq))
      by (unfold chat_completions_create; now rewrite Hapi).
    rewrite (bind_returned _ _ _ _ _ Hcall).
    cbn [first_choice]. unfold bind at 1, ret at 1.
    assert (Hwrite : write_file cfg path (Some reply) (asked w rq) =
                     (Returned ("Wrote to " ++ path),
                      set_file (prompted (asked w rq) ("Overwrite " ++ path ++ "? (y/n): "))
                               (full_path cfg path) (universal_newlines reply)))
      by (eapply write_file_confirmed; eassumption).
    rewrite (bind_returned _ _ _ _ _ Hwrite). reflexivity. }
  rewrite E. clear E out. cbn [fst snd]. rewrite set_file_hit.
  cbn [set_file prompted asked fs_at requests shown].
  rewrite append_assoc. repeat split; reflexivity.
Qed.

Lemma edit_writes_reply_witness :
  let out := get_response sample_cfg "edit app.py double it" (editing_world "Y") in
  fst out = Returned (Some ("Wrote to app.py" ++ nl ++ "New content:" ++ nl ++ "print(2)")) /\
  requests (snd out) = [user_request sample_cfg (edit_prompt "print(1)" "double it")] /\
  fs_at (snd out) "/home/dev/nock/app.py" = Some (Regular (inr "print(2)")) /\
  shown (snd out) = ["Overwrite app.py? (y/n): "].
Proof.
  apply (edit_writes_reply_when_confirmed sample_cfg (editing_world "Y")
           "app.py" "double it" "print(1)" "print(2)" "Y" [] []); reflexivity.
Defined.

End RelayClaims.

(** * More about the export assembler *)

Section ExportExtras.
Import Py SmartExport.

Lemma stat_self (h : host) : stat h (cwd h) = Some (Dir (root_entries h)).
Proof.
  unfold stat, relative_to.
  rewrite <- (append_empty_r (cwd h)) at 2. rewrite strip_prefix_app.
  cbn [String.eqb startswith]. rewrite orb_true_r. reflexivity.
Qed.

Lemma filenames_app (a b : list (string * node)) :
  filenames (a ++ b) = (filenames a ++ filenames b)%list.
Proof. unfold filenames. now rewrite filter_app, map_app. Qed.

Lemma inventory_of_app (a b : list (string * list string * list string)) :
  inventory_of (a ++ b) = (inventory_of a ++ inventory_of b)%list.
Proof. unfold inventory_of. apply flat_map_app. Qed.

(** The inventory of a tree does not change when an empty directory is
    appended to its root. *)
Lemma inventory_with_empty_dir (h : host) (top name : string) (es : list (string * node)) :
  inventory_of (walk h top (Dir (es ++ [(name, Dir [])]))) =
  inventory_of (walk h top (Dir es)).
Proof.
  rewrite !walk_dir. destruct (listing_error h top); [reflexivity|].
  rewrite flat_map_app. cbn [flat_map fst snd]. rewrite app_nil_r.
  rewrite app_comm_cons, inventory_of_app.
  assert (Hlast : inventory_of (if islink h (os_path_join top name) then []
                                else walk h (os_path_join top name) (Dir [])) = []).
  { destruct (islink h (os_path_join top name)); [reflexivity|].
    rewrite walk_dir. destruct (listing_error h (os_path_join top name)); [reflexivity|].
    unfold inventory_of. cbn [flat_map filenames filter map app].
    destruct (skipped (os_path_join top name)); reflexivity. }
  rewrite Hlast, app_nil_r.
  unfold inventory_of. cbn [flat_map].
  rewrite filenames_app. cbn [filenames filter map snd]. now rewrite app_nil_r.
Qed.

(** The walk asks the host for the directories it may list and the links it
    must not follow, not for the tree. *)
Lemma walk_with_entries (h : host) (es' : list (string * node)) (n : node) :
  forall top, walk (with_entries h es') top n = walk h top n.
Proof.
  induction n as [t|es IH] using node_tree_ind; intros top; [reflexivity|].
  rewrite !walk_dir. rewrite Forall_forall in IH.
  cbn [with_entries listing_error islink].
  destruct (listing_error h top); [reflexivity|]. f_equal.
  rewrite !flat_map_concat_map. f_equal.
  apply map_ext_in. intros e He.
  destruct (islink h (os_path_join top (fst e))); [reflexivity|]. now apply IH.
Qed.

Lemma inventory_of_run (h : host) (pkg : package) (we : option exn) :
  create_smart_export h = Completed pkg we ->
  source_code_inventory pkg = inventory_of (walk h (cwd h) (Dir (root_entries h))).
Proof.
  intros Hrun.
  destruct (completed_run _ _ _ Hrun) as (h1 & hf & Hm & _ & _ & _ & _ & -> & _).
  rewrite makedirs_exports_cases in Hm.
  destruct (find_entry "exports" (root_entries h)) as [[t|es]|]; [discriminate| |].
  - injection Hm as <-. unfold os_walk. now rewrite stat_self.
  - destruct (mkdir_error h (export_dir h)); [discriminate|]. injection Hm as <-.
    unfold os_walk.
    change (cwd h) with (cwd (with_entries h (root_entries h ++ [("exports", Dir [])]))) at 1.
    rewrite stat_self. cbn [root_entries with_entries cwd].
    rewrite walk_with_entries. apply inventory_with_empty_dir.
Qed.

Lemma find_entry_in (c : string) (m : node) (es : list (string * node)) :
  find_entry c es = Some m -> In (c, m) es.
Proof.
  induction es as [|[k y] es IH]; cbn [find_entry]; [discriminate|].
  destruct (String.eqb k c) eqn:E.
  - intros [= ->]. apply String.eqb_eq in E; subst. now left.
  - intros H. right. now apply IH.
Qed.

(** [os.walk] reaches every directory of the tree that it can get down to,
    under the path obtained by joining the names on the way to it. *)
Lemma walk_reaches (h : host) (ds : list string) :
  forall top n es,
    lookup n ds = Some (Dir es) ->
    walkable h top ds = true ->
    In (fold_left os_path_join ds top, dirnames es, filenames es) (walk h top n).
Proof.
  induction ds as [|c r IH]; intros top n es H Hw; cbn [lookup fold_left walkable] in *.
  - injection H as ->. rewrite walk_dir.
    destruct (listing_error h top); [discriminate|]. now left.
  - destruct n as [t|es0]; [discriminate|].
    destruct (find_entry c es0) as [m|] eqn:E; [|discriminate].
    rewrite walk_dir. destruct (listing_error h top); [discriminate|].
    apply andb_true_iff in Hw as [Hl Hw]. apply negb_true_iff in Hl.
    right. apply in_flat_map.
    exists (c, m). split; [now apply find_entry_in|].
    cbn [fst snd]. rewrite Hl. now apply IH.
Qed.

Lemma blank_dir (es : list (string * node)) : blank (Dir es) = Dir (blank_entries es).
Proof. reflexivity. Qed.

Lemma dirnames_blank (es : list (string * node)) :
  dirnames (blank_entries es) = dirnames es.
Proof.
  unfold dirnames, blank_entries.
  induction es as [|[k [t|l]] es IHes]; cbn [map filter fst snd blank] in *;
    [reflexivity | exact IHes | now rewrite IHes].
Qed.

Lemma filenames_blank (es : list (string * node)) :
  filenames (blank_entries es) = filenames es.
Proof.
  unfold filenames, blank_entries.
  induction es as [|[k [t|l]] es IHes]; cbn [map filter fst snd blank] in *;
    [reflexivity | now rewrite IHes | exact IHes].
Qed.

Lemma walk_blank (h : host) (n : node) :
  forall top, walk h top (blank n) = walk h top n.
Proof.
  induction n as [t|es IH] using node_tree_ind; intros top; [reflexivity|].
  rewrite blank_dir, !walk_dir. rewrite Forall_forall in IH.
  destruct (listing_error h top); [reflexivity|].
  rewrite dirnames_blank, filenames_blank. f_equal.
  unfold blank_entries. rewrite !flat_map_concat_map, map_map. f_equal.
  apply map_ext_in. intros e He. cbn [fst snd].
  destruct (islink h (os_path_join top (fst e))); [reflexivity|]. now apply IH.
Qed.

Lemma truthy_exists (h : host) (p : string) :
  truthy (get_content h p) = true -> os_path_exists h p = true.
Proof.
  unfold get_content, os_path_exists.
  destruct (stat h p) as [[[s|]|]|]; cbn [truthy]; congruence.
Qed.

Lemma documents_cons (h : host) (p : string) (l : list string) :
  documents h (p :: l) =
  if truthy (get_content h p)
  then {| file_name := os_path_basename p; file_path := p;
          content := get_content h p |} :: documents h l
  else documents h l.
Proof.
  unfold documents. cbn [filter]. destruct (truthy (get_content h p)); reflexivity.
Qed.

(** The existence test on the candidates is subsumed by the test on their
    content, and neither changes when the export directory is created. *)
Lemma documents_existing (h h1 : host) (names : list string) :
  (forall p, get_content h1 p = get_content h p) ->
  documents h1 (existing h (cwd h) names) =
  documents h (map (os_path_join (cwd h)) names).
Proof.
  intros Hgc. unfold existing.
  induction names as [|n names IH]; [reflexivity|].
  cbn [filter map].
  destruct (os_path_exists h (os_path_join (cwd h) n)) eqn:E.
  - cbn [map]. rewrite !documents_cons, Hgc, IH. reflexivity.
  - rewrite documents_cons, IH.
    destruct (truthy (get_content h (os_path_join (cwd h) n))) eqn:T; [|reflexivity].
    apply truthy_exists in T. congruence.
Qed.

Lemma documents_same (h h1 : host) (paths : list string) :
  (forall p, get_content h1 p = get_content h p) ->
  documents h1 paths = documents h paths.
Proof.
  intros Hgc. induction paths as [|p l IH]; [reflexivity|].
  now rewrite !documents_cons, Hgc, IH.
Qed.

Lemma in_documents_iff (h : host) (paths : list string) (d : document) :
  In d (documents h paths) <->
  exists p s, In p paths /\ get_content h p = Some s /\ s <> "" /\
              d = {| file_name := os_path_basename p; file_path := p; content := Some s |}.
Proof.
  unfold documents. rewrite in_map_iff. split.
  - intros [p [<- Hp]]. apply filter_In in Hp as [Hp Ht].
    destruct (get_content h p) as [s|] eqn:E; [|discriminate].
    exists p, s. repeat split; try assumption.
    cbn [truthy] in Ht. apply negb_true_iff in Ht. now apply String.eqb_neq.
  - intros (p & s & Hp & Hs & Hne & ->). exists p. rewrite Hs. split; [reflexivity|].
    apply filter_In. split; [exact Hp|]. rewrite Hs. cbn [truthy].
    apply negb_true_iff. now apply String.eqb_neq.
Qed.

Lemma basename_join (a n : string) :
  contains "/" n = false -> os_path_basename (os_path_join a n) = n.
Proof.
  intros Hn. unfold os_path_basename.
  pose proof (split_no_sep sep n Hn) as Hsp.
  destruct (os_path_join_cases a n (no_slash_not_absolute _ Hn))
    as [[-> [->|[a' ->]]] | ->].
  - cbn [append]. now rewrite Hsp.
  - rewrite append_assoc. cbn [append].
    change (String "/" n) with (String sep n).
    now rewrite split_app_sep, Hsp, last_last.
  - cbn [append]. change (String "/" n) with (String sep n).
    now rewrite split_app_sep, Hsp, last_last.
Qed.

Lemma fixed_names_hold_no_slash (n : string) :
  In n (plan_names ++ key_file_names) -> contains "/" n = false.
Proof.
  intros H.
  assert (Hall : forallb (fun x => negb (contains "/" x)) (plan_names ++ key_file_names) = true)
    by reflexivity.
  rewrite forallb_forall in Hall. now apply negb_true_iff, Hall.
Qed.

(** A bucket filled from fixed candidate names, seen from the tree as it was
    before the run. *)
Lemma fixed_bucket_iff (h h1 : host) (names : list string) (d : document) :
  os_makedirs h (export_dir h) = inr h1 ->
  (forall n, In n names -> contains "/" n = false) ->
  In d (documents h1 (existing h (cwd h) names)) <->
  exists name s,
    In name names /\ get_content h (os_path_join (cwd h) name) = Some s /\ s <> "" /\
    d = {| file_name := name; file_path := os_path_join (cwd h) name; content := Some s |}.
Proof.
  intros Hm Hnames.
  rewrite (documents_existing h h1 names)
    by (intros p; now apply get_content_after_makedirs).
  rewrite in_documents_iff. split.
  - intros (p & s & Hp & Hs & Hne & ->).
    apply in_map_iff in Hp as [n [<- Hn]].
    exists n, s. repeat split; try assumption.
    now rewrite (basename_join _ _ (Hnames n Hn)).
  - intros (n & s & Hn & Hs & Hne & ->).
    exists (os_path_join (cwd h) n), s. repeat split; try assumption.
    + now apply in_map.
    + now rewrite (basename_join _ _ (Hnames n Hn)).
Qed.

Lemma contains_char_app (c : ascii) (a b : string) :
  contains (String c "") (a ++ b) =
  contains (String c "") a || contains (String c "") b.
Proof.
  induction a as [|x a IH].
  - destruct b; reflexivity.
  - cbn [append contains startswith]. rewrite IH.
    rewrite !andb_true_r. now rewrite orb_assoc.
Qed.

Lemma output_name_no_slash (h : host) :
  contains "/" (utc_stamp h) = false -> contains "/" (output_name h) = false.
Proof.
  intros H. unfold output_name.
  rewrite (contains_char_app "/" "nockchain_smart_export_"), (contains_char_app "/" (utc_stamp h)).
  now rewrite H.
Qed.

Lemma export_dir_keeps_separator (h : host) (name : string) :
  os_path_join (export_dir h) name = export_dir h ++ "/" ++ name \/
  startswith name "/" = true.
Proof.
  destruct (startswith name "/") eqn:Hn; [now right|left].
  assert (He : endswith (export_dir h) "exports" = true)
    by (apply os_path_join_endswith, endswith_refl).
  destruct (os_path_join_cases (export_dir h) name Hn) as [[_ [E|[a E]]] | E];
    [ | | exact E ].
  - rewrite E in He. discriminate.
  - assert (Hs : endswith (export_dir h) "/" = true)
      by (rewrite E; apply endswith_app).
    destruct (endswith_comparable _ _ _ He Hs); discriminate.
Qed.

Lemma os_path_join_nested (a b c : string) :
  startswith b "/" = false -> startswith (b ++ "/" ++ c) "/" = false ->
  os_path_join a b ++ "/" ++ c = os_path_join a (b ++ "/" ++ c).
Proof.
  intros Hb Hbc. unfold os_path_join. rewrite Hb, Hbc.
  destruct (String.eqb a "" || endswith a "/"); now rewrite !append_assoc.
Qed.

(** The output file, as a path below the working directory. *)
Lemma output_file_below_cwd (h : host) :
  contains "/" (utc_stamp h) = false ->
  output_file h = os_path_join (cwd h) ("exports/" ++ output_name h).
Proof.
  intros Hs. pose proof (output_name_no_slash h Hs) as Hn.
  unfold output_file. fold (output_name h).
  destruct (export_dir_keeps_separator h (output_name h)) as [-> | Habs];
    [|rewrite (no_slash_not_absolute _ Hn) in Habs; discriminate].
  unfold export_dir. now apply os_path_join_nested.
Qed.

Lemma output_components (h : host) :
  contains "/" (utc_stamp h) = false ->
  components ("exports/" ++ output_name h) = ["exports"; output_name h].
Proof.
  intros Hs. pose proof (output_name_no_slash h Hs) as Hn.
  unfold components.
  change ("exports/" ++ output_name h) with ("exports" ++ String sep (output_name h)).
  rewrite split_app_sep, (split_no_sep sep _ Hn).
  reflexivity.
Qed.

Lemma handover_after_makedirs (h h1 : host) :
  os_makedirs h (export_dir h) = inr h1 ->
  stat h1 (handover_path h) = find_entry "handover" (root_entries h).
Proof.
  intros Hm.
  assert (Hc : cwd h1 = cwd h)
    by (apply makedirs_exports in Hm as [->|[_ ->]]; reflexivity).
  unfold handover_path. rewrite <- Hc, (stat_child h1 "handover" eq_refl).
  change (components "handover") with ["handover"]. cbn [lookup].
  apply makedirs_exports in Hm as [->|[_ ->]].
  - now destruct (find_entry "handover" (root_entries h)).
  - cbn [root_entries with_entries]. rewrite find_entry_app.
    now destruct (find_entry "handover" (root_entries h)).
Qed.

(** X1: each of these stops the run before a document exists, with the
    exception named: a regular file [exports] in the root
    ([FileExistsError] on the export directory); a refusal to create the
    export directory; a handover directory that is there and whose listing
    is refused, the guarded reads of the files notwithstanding. *)
Theorem export_aborts_when (h : host) (e : exn) :
  ((exists t, find_entry "exports" (root_entries h) = Some (File t)) /\
   e = FileExistsError (export_dir h)) \/
  (find_entry "exports" (root_entries h) = None /\
   mkdir_error h (export_dir h) = Some e) \/
  ((exists h1, os_makedirs h (export_dir h) = inr h1) /\
   (exists es, find_entry "handover" (root_entries h) = Some (Dir es)) /\
   listing_error h (handover_path h) = Some e) ->
  create_smart_export h = Aborted e.
Proof.
  intros [[[t Ht] ->] | [[Hn He] | [[h1 Hm] [[es Hes] He]]]];
    unfold create_smart_export; fold (export_dir h); fold (handover_path h).
  - now rewrite makedirs_exports_cases, Ht.
  - now rewrite makedirs_exports_cases, Hn, He.
  - rewrite Hm, handover_listing_cases, (listing_error_after_makedirs h h1 Hm).
    rewrite (handover_after_makedirs h h1 Hm), Hes, He. reflexivity.
Qed.

Lemma export_aborts_witness :
  create_smart_export locked_host = Aborted (PermissionError "/home/dev/nock/handover").
Proof.
  apply (export_aborts_when locked_host (PermissionError "/home/dev/nock/handover")).
  right. right. split; [|split].
  - eexists. vm_compute. reflexivity.
  - eexists. vm_compute. reflexivity.
  - reflexivity.
Defined.

(** X2: when a directory already sits at the path of the output file, the
    run still completes, and the write has failed with
    [IsADirectoryError]. *)
Theorem final_write_error (h : host) (pkg : package) (we : option exn) :
  contains "/" (utc_stamp h) = false ->
  create_smart_export h = Completed pkg we ->
  os_path_isdir h (output_file h) = true ->
  we = Some (IsADirectoryError (output_file h)).
Proof.
  intros Hs Hrun.
  destruct (completed_run _ _ _ Hrun) as (h1 & hf & Hm & _ & _ & _ & _ & _ & ->).
  unfold os_path_isdir, open_w_error.
  assert (Hc : cwd h1 = cwd h)
    by (apply makedirs_exports in Hm as [->|[_ ->]]; reflexivity).
  rewrite Hc.
  assert (Hrel : startswith ("exports/" ++ output_name h) "/" = false) by reflexivity.
  rewrite (output_file_below_cwd h Hs) at 1 2.
  rewrite (stat_child h _ Hrel).
  destruct (relative_to_child (cwd h) _ Hrel) as [rel [-> ->]].
  rewrite (output_components h Hs).
  rewrite makedirs_exports_cases in Hm.
  cbn [lookup removelast].
  destruct (find_entry "exports" (root_entries h)) as [[t|es]|] eqn:E;
    [discriminate| |].
  - injection Hm as <-. rewrite E.
    destruct (find_entry (output_name h) es) as [[t|sub]|];
      [discriminate | reflexivity | discriminate].
  - discriminate.
Qed.

Lemma final_write_error_witness :
  contains "/" (utc_stamp clashing_host) = false /\
  exists pkg,
    create_smart_export clashing_host =
      Completed pkg (Some (IsADirectoryError
        "/home/dev/nock/exports/nockchain_smart_export_20250101_120000.json")).
Proof.
  split; [reflexivity|].
  destruct (create_smart_export clashing_host) as [e|pkg we] eqn:Hrun;
    [vm_compute in Hrun; discriminate|].
  exists pkg. f_equal.
  apply (final_write_error clashing_host pkg we); [reflexivity | exact Hrun | reflexivity].
Defined.

(** X3: creating the export directory adds nothing to the inventory: it
    is the inventory of the tree as it was before the run. *)
Theorem inventory_ignores_export_dir (h : host) (pkg : package) (we : option exn) :
  create_smart_export h = Completed pkg we ->
  source_code_inventory pkg = inventory_of (walk h (cwd h) (Dir (root_entries h))).
Proof. apply inventory_of_run. Qed.

Lemma inventory_ignores_export_dir_witness :
  exists pkg,
    create_smart_export bare_host = Completed pkg None /\
    source_code_inventory pkg =
      inventory_of (walk bare_host (cwd bare_host) (Dir (root_entries bare_host))).
Proof.
  eexists. split; [vm_compute; reflexivity|].
  eapply (inventory_ignores_export_dir bare_host _ None). vm_compute. reflexivity.
Defined.

(** X4: every source file in a directory that the walk gets down to and
    that is not skipped is listed: for a directory reached from the root by
    the names [ds], each directory on the way listable and none of them a
    symbolic link, whose joined path holds no marker, each of its files
    with an allow-listed extension is in the inventory under the joined
    path. *)
Theorem inventory_lists_source_files
  (h : host) (pkg : package) (we : option exn)
  (ds : list string) (es : list (string * node)) (file : string) (t : option string) :
  create_smart_export h = Completed pkg we ->
  lookup (Dir (root_entries h)) ds = Some (Dir es) ->
  walkable h (cwd h) ds = true ->
  In (file, File t) es ->
  is_source_code file = true ->
  skipped (fold_left os_path_join ds (cwd h)) = false ->
  In (os_path_join (fold_left os_path_join ds (cwd h)) file) (source_code_inventory pkg).
Proof.
  intros Hrun Hdir Hwalk Hfile Hsrc Hskip.
  rewrite (inventory_of_run _ _ _ Hrun).
  unfold inventory_of. apply in_flat_map.
  exists (fold_left os_path_join ds (cwd h), dirnames es, filenames es).
  split; [now apply walk_reaches|].
  rewrite Hskip. apply in_map, filter_In. split; [|exact Hsrc].
  unfold filenames. apply in_map_iff. exists (file, File t). split; [reflexivity|].
  apply filter_In. now split.
Qed.

Lemma inventory_lists_witness :
  exists pkg,
    create_smart_export sample_host = Completed pkg None /\
    In "/home/dev/nock/src/main.ts" (source_code_inventory pkg).
Proof.
  eexists. split; [vm_compute; reflexivity|].
  eapply (inventory_lists_source_files sample_host _ None ["src"] _ "main.ts" (Some "let x = 1"));
    [ vm_compute; reflexivity | reflexivity | reflexivity | left; reflexivity
    | reflexivity | reflexivity ].
Defined.

(** X5: source files are never opened: with every file of the tree made
    unreadable the inventory is the same. *)
Theorem inventory_ignores_contents
  (h : host) (pkg pkg' : package) (we we' : option exn) :
  create_smart_export h = Completed pkg we ->
  create_smart_export (with_entries h (blank_entries (root_entries h))) = Completed pkg' we' ->
  source_code_inventory pkg' = source_code_inventory pkg.
Proof.
  intros Hrun Hrun'.
  rewrite (inventory_of_run _ _ _ Hrun), (inventory_of_run _ _ _ Hrun').
  cbn [cwd root_entries with_entries].
  now rewrite walk_with_entries, <- blank_dir, walk_blank.
Qed.

Lemma inventory_ignores_contents_witness :
  exists pkg pkg',
    create_smart_export sample_host = Completed pkg None /\
    create_smart_export (with_entries sample_host (blank_entries (root_entries sample_host)))
      = Completed pkg' None /\
    source_code_inventory pkg' = source_code_inventory pkg /\
    content_documents pkg' = [].
Proof.
  eexists. eexists. split; [vm_compute; reflexivity|].
  split; [vm_compute; reflexivity|]. split; [|reflexivity].
  eapply (inventory_ignores_contents sample_host _ _ None None); vm_compute; reflexivity.
Defined.

(** X6: [key_files] and [project_plans] hold exactly the records of the
    fixed candidate names whose file, in the root, reads as a non-empty
    text: the record carries the name, the joined path and that text. *)
Theorem fixed_buckets_exact (h : host) (pkg : package) (we : option exn) (d : document) :
  create_smart_export h = Completed pkg we ->
  (In d (key_files pkg) <->
   exists name s,
     In name key_file_names /\
     get_content h (os_path_join (cwd h) name) = Some s /\ s <> "" /\
     d = {| file_name := name; file_path := os_path_join (cwd h) name;
            content := Some s |}) /\
  (In d (project_plans pkg) <->
   exists name s,
     In name plan_names /\
     get_content h (os_path_join (cwd h) name) = Some s /\ s <> "" /\
     d = {| file_name := name; file_path := os_path_join (cwd h) name;
            content := Some s |}).
Proof.
  intros Hrun.
  destruct (completed_run _ _ _ Hrun) as (h1 & hf & Hm & _ & _ & -> & -> & _).
  split; apply (fixed_bucket_iff h h1 _ d Hm); intros n Hn;
    apply fixed_names_hold_no_slash, in_or_app; [now right | now left].
Qed.

Lemma fixed_buckets_witness :
  exists pkg,
    create_smart_export sample_host = Completed pkg None /\
    In {| file_name := "README.md"; file_path := "/home/dev/nock/README.md";
          content := Some "# Nockchain" |} (key_files pkg).
Proof.
  destruct (create_smart_export sample_host) as [e|pkg we] eqn:Hrun;
    [vm_compute in Hrun; discriminate|].
  assert (Hwe : we = None) by (vm_compute in Hrun; now injection Hrun).
  subst we. exists pkg. split; [reflexivity|].
  destruct (fixed_buckets_exact sample_host pkg None
              {| file_name := "README.md"; file_path := "/home/dev/nock/README.md";
                 content := Some "# Nockchain" |} Hrun) as [[_ Hk] _].
  apply Hk. exists "README.md", "# Nockchain".
  split; [left; reflexivity|]. split; [reflexivity|]. split; [discriminate | reflexivity].
Defined.

(** X7: [handover_documents] holds exactly the records of the entries of
    the handover directory whose name ends with [.md] and whose file reads
    as a non-empty text; there is none when [handover] is missing or is not
    a directory. *)
Theorem handover_bucket_exact (h : host) (pkg : package) (we : option exn) (d : document) :
  create_smart_export h = Completed pkg we ->
  (In d (handover_documents pkg) <->
   exists es f s,
     find_entry "handover" (root_entries h) = Some (Dir es) /\
     In f (map fst es) /\ endswith f ".md" = true /\
     get_content h (os_path_join (handover_path h) f) = Some s /\ s <> "" /\
     d = {| file_name := os_path_basename (os_path_join (handover_path h) f);
            file_path := os_path_join (handover_path h) f;
            content := Some s |}).
Proof.
  intros Hrun.
  destruct (completed_run _ _ _ Hrun) as (h1 & hf & Hm & Hl & -> & _).
  rewrite (documents_same h h1 hf) by (intros p; now apply get_content_after_makedirs).
  rewrite in_documents_iff.
  rewrite handover_listing_cases, (handover_after_makedirs h h1 Hm) in Hl.
  destruct (find_entry "handover" (root_entries h)) as [[t|es]|];
    [ | destruct (listing_error h1 (handover_path h)); [discriminate|] | ];
    injection Hl as <-.
  - split; [intros (p & s & [] & _) | intros (es & f & s & E & _); discriminate].
  - split.
    + intros (p & s & Hp & Hs & Hne & ->).
      apply in_map_iff in Hp as [f [<- Hf]]. apply filter_In in Hf as [Hf Hmd].
      now exists es, f, s.
    + intros (es' & f & s & [= <-] & Hf & Hmd & Hs & Hne & ->).
      exists (os_path_join (handover_path h) f), s. repeat split; try assumption.
      apply in_map, filter_In. now split.
  - split; [intros (p & s & [] & _) | intros (es & f & s & E & _); discriminate].
Qed.

Lemma handover_bucket_witness :
  exists pkg,
    create_smart_export sample_host = Completed pkg None /\
    In {| file_name := "day1.md"; file_path := "/home/dev/nock/handover/day1.md";
          content := Some "notes" |} (handover_documents pkg).
Proof.
  destruct (create_smart_export sample_host) as [e|pkg we] eqn:Hrun;
    [vm_compute in Hrun; discriminate|].
  assert (Hwe : we = None) by (vm_compute in Hrun; now injection Hrun).
  subst we. exists pkg. split; [reflexivity|].
  destruct (handover_bucket_exact sample_host pkg None
              {| file_name := "day1.md"; file_path := "/home/dev/nock/handover/day1.md";
                 content := Some "notes" |} Hrun) as [_ Hk].
  apply Hk.
  eexists. exists "day1.md", "notes".
  split; [reflexivity|]. split; [left; reflexivity|]. split; [reflexivity|].
  split; [reflexivity|]. split; [discriminate | reflexivity].
Defined.

End ExportExtras.

(** * More about the command relay *)

Section RelayExtras.
Import Py KimiChat.

Lemma try_snd {A : Type} (m : M A) (f : exn -> A) (w : world) :
  snd (try_except m (fun e => ret (f e)) w) = snd (m w).
Proof. unfold try_except, ret. now destruct (m w) as [[a|e] w']. Qed.

Lemma try_fst {A : Type} (m : M A) (f : exn -> A) (w : world) :
  exists r, fst (try_except m (fun e => ret (f e)) w) = Returned r.
Proof. unfold try_except, ret. destruct (m w) as [[a|e] w']; cbn [fst]; eauto. Qed.

Lemma bind_ret_snd {A B : Type} (m : M A) (f : A -> B) (w : world) :
  snd (bind m (fun a => ret (f a)) w) = snd (m w).
Proof. unfold bind, ret. now destruct (m w) as [[a|e] w']. Qed.

Lemma read_file_returns (cfg : config) (path : string) (w : world) :
  exists r, read_file cfg path w = (Returned r, w).
Proof.
  unfold read_file, try_except, open_read, ret.
  destruct (fs_at w (os_path_join (PROJECT_DIR cfg) path)) as [[|[e|s]]|]; eauto.
Qed.

Lemma chat_completions_create_world (rq : request) (w : world) :
  snd (chat_completions_create rq w) = asked w rq.
Proof. unfold chat_completions_create. now destruct (api w rq). Qed.

(** What [write_file] can do to the world, whatever the content. *)
Lemma write_file_effect (cfg : config) (path : string) (content : option string) (w : world) :
  let out := write_file cfg path content w in
  let msg := "Overwrite " ++ path ++ "? (y/n): " in
  (exists r, fst out = Returned r) /\
  wdeny (snd out) = wdeny w /\ api (snd out) = api w /\
  requests (snd out) = requests w /\
  (forall q, q <> full_path cfg path -> alias w q (full_path cfg path) = false ->
             fs_at (snd out) q = fs_at w q) /\
  (stdin (snd out) = stdin w /\ shown (snd out) = shown w /\
   fs_at w (full_path cfg path) = None
   \/
   stdin (snd out) = tl (stdin w) /\ shown (snd out) = (shown w ++ [msg])%list /\
   fs_at w (full_path cfg path) <> None) /\
  (forall s, content = Some s -> fst out = Returned ("Wrote to " ++ path) ->
             fs_at (snd out) (full_path cfg path)
               = Some (Regular (inr (universal_newlines s)))).
Proof.
  cbv zeta.
  unfold write_file, try_except, bind, os_path_exists, input, open_write, ret.
  fold (full_path cfg path).
  assert (Hset : forall w0 s q, q <> full_path cfg path ->
                   alias w0 q (full_path cfg path) = false ->
                   fs_at (set_file w0 (full_path cfg path) s) q = fs_at w0 q).
  { intros w0 s q Hq Ha. cbn [set_file fs_at].
    apply String.eqb_neq in Hq. now rewrite Hq, Ha. }
  assert (Hhit : forall w0 s,
                   fs_at (set_file w0 (full_path cfg path) s) (full_path cfg path)
                   = Some (Regular (inr s)))
    by (intros; apply set_file_hit).
  destruct (fs_at w (full_path cfg path)) as [[|d]|] eqn:Hf.
  - (* a directory *)
    destruct (stdin w) as [|a more] eqn:Hin; cbn [fst snd negb];
      [|destruct (String.eqb (lower a) "y"); cbn [fst snd negb prompted fs_at];
        rewrite ?Hf; cbn [fst snd]];
      (repeat split; eauto; try (intros; discriminate)).
    all: right; cbn [prompted stdin shown]; rewrite Hin; repeat split; congruence.
  - (* a regular file *)
    destruct (stdin w) as [|a more] eqn:Hin; cbn [fst snd negb];
      [|destruct (String.eqb (lower a) "y");
        cbn [fst snd negb prompted fs_at wdeny write_fault];
        rewrite ?Hf;
        [destruct (wdeny w (full_path cfg path));
         [|destruct content as [c|];
           [destruct (write_fault w (full_path cfg path) c) as [[e residue]|]|]]|];
        cbn [fst snd]];
      (repeat split; eauto; try (intros; discriminate); try (intros; cbn; congruence)).
    all: try (right; cbn [prompted set_file stdin shown]; rewrite Hin;
              repeat split; congruence).
    all: try (intros q Hq Ha; rewrite Hset by (cbn [prompted alias]; assumption);
              reflexivity).
    all: intros s0 [= <-] _; apply Hhit.
  - (* nothing there *)
    cbv beta iota. rewrite Hf.
    destruct (wdeny w (full_path cfg path));
      [|destruct content as [c|];
        [destruct (write_fault w (full_path cfg path) c) as [[e residue]|]|]];
      cbn [fst snd];
      (repeat split; eauto; try (intros; discriminate); try (intros; cbn; congruence)).
    all: try (intros q Hq Ha; rewrite Hset by assumption; reflexivity).
    all: intros s0 [= <-] _; apply Hhit.
Qed.

(** The world [get_response] leaves behind: the one it found, that world
    with one more request, or what [write_file] made of either, for the
    path that is the first word after [write] or [edit]. *)
Lemma get_response_world (cfg : config) (prompt : string) (w : world) :
  let w' := snd (get_response cfg prompt w) in
  w' = w \/ (exists rq, w' = asked w rq) \/
  (exists path rest content w0,
      (w0 = w \/ exists rq, w0 = asked w rq) /\
      (startswith (lower prompt) "write " = true /\
       split_once " " (drop 6 prompt) = [path; rest] \/
       startswith (lower prompt) "edit " = true /\
       split_once " " (drop 5 prompt) = [path; rest]) /\
      w' = snd (write_file cfg path content w0)).
Proof.
  cbv zeta. set (w' := snd (get_response cfg prompt w)).
  assert (Hw' : w' = snd (get_response cfg prompt w)) by reflexivity.
  clearbody w'. unfold get_response in Hw'. rewrite try_snd in Hw'.
  destruct (startswith (lower prompt) "read ").
  { left. rewrite bind_ret_snd in Hw'.
    now destruct (read_file_returns cfg (strip (drop 5 prompt)) w) as [r Hr];
      rewrite Hr in Hw'. }
  destruct (startswith (lower prompt) "write ") eqn:Vw.
  { destruct (split_once " " (drop 6 prompt)) as [|a [|b [|c l]]] eqn:E;
      try (left; exact Hw').
    right; right. exists a, b, (Some b), w.
    split; [now left|]. split; [now left|]. now rewrite bind_ret_snd in Hw'. }
  destruct (startswith (lower prompt) "edit ") eqn:Ve.
  { destruct (split_once " " (drop 5 prompt)) as [|a [|b [|c l]]] eqn:E;
      try (left; exact Hw').
    unfold bind at 1 in Hw'.
    destruct (read_file_returns cfg a w) as [content Hr]. rewrite Hr in Hw'.
    destruct (contains "Error" content); [left; exact Hw'|].
    unfold bind at 1, chat_completions_create in Hw'.
    fold (asked w (user_request cfg (edit_prompt content b))) in Hw'.
    destruct (api w (user_request cfg (edit_prompt content b))) as [e|[|c choices]].
    - right; left. eexists. exact Hw'.
    - right; left. eexists. exact Hw'.
    - cbn [first_choice] in Hw'. unfold bind at 1, ret at 1 in Hw'.
      right; right.
      exists a, b, c, (asked w (user_request cfg (edit_prompt content b))).
      split; [right; now eexists|]. split; [now right|].
      now rewrite bind_ret_snd in Hw'. }
  right; left. exists (user_request cfg prompt).
  unfold bind, chat_completions_create in Hw'.
  fold (asked w (user_request cfg prompt)) in Hw'.
  destruct (api w (user_request cfg prompt)) as [e|[|c choices]]; exact Hw'.
Qed.

Lemma get_response_returns_value (cfg : config) (prompt : string) (w : world) :
  exists r, fst (get_response cfg prompt w) = Returned r.
Proof. unfold get_response. apply try_fst. Qed.

Lemma get_response_stdin (cfg : config) (prompt : string) (w : world) :
  stdin (snd (get_response cfg prompt w)) = stdin w \/
  stdin (snd (get_response cfg prompt w)) = tl (stdin w).
Proof.
  destruct (get_response_world cfg prompt w)
    as [-> | [[rq ->] | (path & rest & c & w0 & Hw0 & _ & ->)]];
    [now left | now left |].
  destruct (write_file_effect cfg path c w0) as (_ & _ & _ & _ & _ & Hs & _).
  assert (E : stdin w0 = stdin w) by (destruct Hw0 as [->|[rq ->]]; reflexivity).
  rewrite <- E. destruct Hs as [[-> _]|[-> _]]; [now left | now right].
Qed.

Lemma cut_none (c : ascii) (s : string) :
  contains (String c "") s = false -> cut c s = None.
Proof.
  induction s as [|x s IH]; intros H; [reflexivity|].
  apply no_sep_cons in H as [Hx Hs]. cbn [cut].
  now rewrite eqb_ascii_sym, Hx, (IH Hs).
Qed.

(** A [write] command is [write_file] on the first word and the rest. *)
Lemma get_response_write (cfg : config) (w : world) (path content : string) :
  contains " " path = false ->
  exists r,
    fst (write_file cfg path (Some content) w) = Returned r /\
    get_response cfg ("write " ++ path ++ " " ++ content) w =
      (Returned (Some r), snd (write_file cfg path (Some content) w)).
Proof.
  intros Hpath.
  destruct (write_file_effect cfg path (Some content) w) as ([r Hr] & _).
  exists r. split; [exact Hr|].
  unfold get_response.
  destruct (dispatch_write (path ++ " " ++ content)) as [-> ->].
  change (drop 6 ("write " ++ path ++ " " ++ content)) with (path ++ " " ++ content).
  rewrite (split_once_first_space path content Hpath).
  unfold try_except, bind, ret.
  destruct (write_file cfg path (Some content) w) as [res w1].
  cbn [fst snd] in *. now subst res.
Qed.

(** An [edit] command up to the point where the reply is at hand. *)
Lemma get_response_edit (cfg : config) (w : world) (path instruction content : string) :
  contains " " path = false ->
  fs_at w (full_path cfg path) = Some (Regular (inr content)) ->
  contains "Error" content = false ->
  let rq := user_request cfg (edit_prompt content instruction) in
  get_response cfg ("edit " ++ path ++ " " ++ instruction) w =
  match api w rq with
  | inl e => (Returned (Some ("Error: " ++ str_exn e)), asked w rq)
  | inr [] => (Returned (Some ("Error: " ++ str_exn IndexError)), asked w rq)
  | inr (c :: _) =>
      match write_file cfg path c (asked w rq) with
      | (Returned r, w') =>
          (Returned (Some (r ++ nl ++ "New content:" ++ nl ++ format c)), w')
      | (Raised e, w') => (Returned (Some ("Error: " ++ str_exn e)), w')
      end
  end.
Proof.
  intros Hpath Hfile Hclean rq.
  unfold get_response.
  destruct (dispatch_edit (path ++ " " ++ instruction)) as (-> & -> & ->).
  change (drop 5 ("edit " ++ path ++ " " ++ instruction)) with (path ++ " " ++ instruction).
  rewrite (split_once_first_space path instruction Hpath).
  unfold try_except.
  rewrite (bind_returned _ _ _ _ _ (read_file_text cfg w path content Hfile)).
  rewrite Hclean. fold rq.
  unfold bind at 1, chat_completions_create. fold (asked w rq).
  destruct (api w rq) as [e|[|c choices]]; [reflexivity | reflexivity |].
  cbn [first_choice]. unfold bind at 1, ret at 1. unfold bind, ret.
  now destruct (write_file cfg path c (asked w rq)) as [[r|e] w'].
Qed.

(** X9: [read <path>] on a file that reads as text returns that text and
    leaves the world as it was; the path is what follows the verb with the
    white space around it stripped, the no-break space included. *)
Theorem read_returns_text (cfg : config) (w : world) (path content : string) :
  fs_at w (full_path cfg (strip path)) = Some (Regular (inr content)) ->
  get_response cfg ("read " ++ path) w = (Returned (Some content), w).
Proof.
  intros Hfile. unfold get_response. rewrite dispatch_read.
  change (drop 5 ("read " ++ path)) with path.
  apply try_returned.
  now rewrite (bind_returned _ _ _ _ _ (read_file_text cfg w _ content Hfile)).
Qed.

Lemma read_returns_text_witness :
  get_response sample_cfg ("read " ++ String (ascii_of_nat 160) " app.py ") (typing_world []) =
    (Returned (Some "print(1)"), typing_world []).
Proof.
  apply (read_returns_text sample_cfg (typing_world [])
           (String (ascii_of_nat 160) " app.py ") "print(1)").
  reflexivity.
Defined.






Lemma write_file_eof (cfg : config) (w : world) (path : string)
      (content : option string) (old : fnode) :
  fs_at w (full_path cfg path) = Some old ->
  stdin w = [] ->
  write_file cfg path content w =
    (Returned ("Error writing: " ++ str_exn EOFError),
     prompted w ("Overwrite " ++ path ++ "? (y/n): ")).
Proof.
  intros Hf Hin.
  unfold write_file, try_except, bind, os_path_exists, input, ret.
  fold (full_path cfg path). now rewrite Hf, Hin.
Qed.

Lemma write_file_none_confirmed (cfg : config) (w : world) (path : string)
      (old : exn + string) (answer : string) (more : list string) :
  fs_at w (full_path cfg path) = Some (Regular old) ->
  stdin w = answer :: more ->
  lower answer = "y" ->
  wdeny w (full_path cfg path) = None ->
  write_file cfg path None w =
    (Returned "Error writing: write() argument must be str, not None",
     set_file (prompted w ("Overwrite " ++ path ++ "? (y/n): ")) (full_path cfg path) "").
Proof.
  intros Hf Hin Hy Hd.
  unfold write_file, try_except, bind, os_path_exists, input, open_write, ret.
  fold (full_path cfg path). rewrite Hf, Hin, Hy.
  cbn [String.eqb Ascii.eqb Bool.eqb negb andb prompted fs_at wdeny].
  rewrite Hf, Hd. reflexivity.
Qed.

Lemma read_file_error (cfg : config) (w : world) (path : string) :
  (forall content, fs_at w (full_path cfg path) <> Some (Regular (inr content))) ->
  exists e, read_file cfg path w = (Returned ("Error reading: " ++ str_exn e), w).
Proof.
  intros Hno. unfold read_file, try_except, open_read, ret.
  fold (full_path cfg path).
  destruct (fs_at w (full_path cfg path)) as [[|[e|s]]|]; eauto.
  now destruct (Hno s).
Qed.

(** X12: when the input is exhausted at the overwrite question the
    [EOFError] is reported as [Error writing: ...] and no file changes. *)
Theorem eof_at_overwrite_question
  (cfg : config) (w : world) (path content : string) (old : fnode) :
  contains " " path = false ->
  fs_at w (full_path cfg path) = Some old ->
  stdin w = [] ->
  let out := get_response cfg ("write " ++ path ++ " " ++ content) w in
  fst out = Returned (Some "Error writing: EOF when reading a line") /\
  forall q, fs_at (snd out) q = fs_at w q.
Proof.
  intros Hpath Hfile Hin out. subst out.
  destruct (get_response_write cfg w path content Hpath) as (r & Hr & ->).
  rewrite (write_file_eof cfg w path (Some content) old Hfile Hin) in *.
  cbn [fst snd] in *. injection Hr as <-. split; reflexivity.
Qed.

Lemma eof_at_overwrite_witness :
  let out := get_response sample_cfg "write app.py x = 1" (typing_world []) in
  fst out = Returned (Some "Error writing: EOF when reading a line") /\
  forall q, fs_at (snd out) q = fs_at (typing_world []) q.
Proof.
  apply (eof_at_overwrite_question sample_cfg (typing_world []) "app.py" "x = 1"
           (Regular (inr "print(1)"))); reflexivity.
Defined.

(** X13: [write] or [edit] followed by a single word returns the usage
    line and touches nothing. *)
Theorem usage_when_argument_missing (cfg : config) (w : world) (rest : string) :
  contains " " rest = false ->
  get_response cfg ("write " ++ rest) w =
    (Returned (Some "Usage: write <file> <content>"), w) /\
  get_response cfg ("edit " ++ rest) w =
    (Returned (Some "Usage: edit <file> <instruction>"), w).
Proof.
  intros Hrest. unfold get_response. split.
  - destruct (dispatch_write rest) as [-> ->].
    change (drop 6 ("write " ++ rest)) with rest.
    unfold split_once. now rewrite (cut_none " " rest Hrest).
  - destruct (dispatch_edit rest) as (-> & -> & ->).
    change (drop 5 ("edit " ++ rest)) with rest.
    unfold split_once. now rewrite (cut_none " " rest Hrest).
Qed.

Lemma usage_witness :
  get_response sample_cfg "write app.py" (typing_world []) =
    (Returned (Some "Usage: write <file> <content>"), typing_world []) /\
  get_response sample_cfg "edit app.py" (typing_world []) =
    (Returned (Some "Usage: edit <file> <instruction>"), typing_world []).
Proof.
  apply (usage_when_argument_missing sample_cfg (typing_world []) "app.py"). reflexivity.
Defined.

(** X14: when the provider raises, or returns no choice, during an
    [edit], the error is returned as [Error: ...]; the request was made,
    nothing was asked and no file was written. *)
Theorem edit_survives_provider_failure
  (cfg : config) (w : world) (path instruction content : string) (err : exn) :
  contains " " path = false ->
  fs_at w (full_path cfg path) = Some (Regular (inr content)) ->
  contains "Error" content = false ->
  api w (user_request cfg (edit_prompt content instruction)) = inl err \/
  api w (user_request cfg (edit_prompt content instruction)) = inr [] /\ err = IndexError ->
  get_response cfg ("edit " ++ path ++ " " ++ instruction) w =
    (Returned (Some ("Error: " ++ str_exn err)),
     asked w (user_request cfg (edit_prompt content instruction))).
Proof.
  intros Hpath Hfile Hclean Hapi.
  rewrite (get_response_edit cfg w path instruction content Hpath Hfile Hclean).
  destruct Hapi as [-> | [-> ->]]; reflexivity.
Qed.

Lemma edit_survives_witness :
  get_response sample_cfg "edit app.py boom" (typing_world ["y"]) =
    (Returned (Some "Error: rate limit"),
     asked (typing_world ["y"]) (user_request sample_cfg (edit_prompt "print(1)" "boom"))).
Proof.
  apply (edit_survives_provider_failure sample_cfg (typing_world ["y"])
           "app.py" "boom" "print(1)" (APIError "rate limit"));
    [ reflexivity | reflexivity | reflexivity | left; reflexivity ].
Defined.

(** X15: an [edit] of a path that cannot be read as text returns the
    [Error reading: ...] string of [read_file]; no request is made and the
    world is as it was. *)
Theorem edit_of_unreadable_file
  (cfg : config) (w : world) (path instruction : string) :
  contains " " path = false ->
  (forall content, fs_at w (full_path cfg path) <> Some (Regular (inr content))) ->
  exists e,
    get_response cfg ("edit " ++ path ++ " " ++ instruction) w =
      (Returned (Some ("Error reading: " ++ str_exn e)), w).
Proof.
  intros Hpath Hno.
  destruct (read_file_error cfg w path Hno) as [e He]. exists e.
  unfold get_response.
  destruct (dispatch_edit (path ++ " " ++ instruction)) as (-> & -> & ->).
  change (drop 5 ("edit " ++ path ++ " " ++ instruction)) with (path ++ " " ++ instruction).
  rewrite (split_once_first_space path instruction Hpath).
  apply try_returned. rewrite (bind_returned _ _ _ _ _ He). reflexivity.
Qed.

Lemma edit_of_unreadable_witness :
  exists e,
    get_response sample_cfg "edit gone.py fix it" (typing_world ["y"]) =
      (Returned (Some ("Error reading: " ++ str_exn e)), typing_world ["y"]).
Proof.
  apply (edit_of_unreadable_file sample_cfg (typing_world ["y"]) "gone.py" "fix it");
    [reflexivity | intros content; discriminate].
Defined.

(** X16: an [edit] whose overwrite question is declined has already
    asked the provider: the request is recorded, the reply is shown after
    [Cancelled], and no file changes. *)
Theorem declined_edit_has_asked_provider
  (cfg : config) (w : world) (path instruction content answer : string)
  (reply : option string) (others : list (option string)) (more : list string) :
  contains " " path = false ->
  fs_at w (full_path cfg path) = Some (Regular (inr content)) ->
  contains "Error" content = false ->
  api w (user_request cfg (edit_prompt content instruction)) = inr (reply :: others) ->
  stdin w = answer :: more ->
  lower answer <> "y" ->
  let out := get_response cfg ("edit " ++ path ++ " " ++ instruction) w in
  fst out = Returned (Some ("Cancelled" ++ nl ++ "New content:" ++ nl ++ format reply)) /\
  requests (snd out) =
    (requests w ++ [user_request cfg (edit_prompt content instruction)])%list /\
  (forall q, fs_at (snd out) q = fs_at w q) /\
  stdin (snd out) = more.
Proof.
  intros Hpath Hfile Hclean Hapi Hin Hy out. subst out.
  rewrite (get_response_edit cfg w path instruction content Hpath Hfile Hclean), Hapi.
  rewrite (write_file_declined cfg (asked w _) path reply _ answer more Hfile Hin Hy).
  cbn [fst snd prompted asked fs_at requests stdin]. rewrite Hin. repeat split.
Qed.

Lemma declined_edit_witness :
  let out := get_response sample_cfg "edit app.py double it" (typing_world ["n"]) in
  fst out = Returned (Some ("Cancelled" ++ nl ++ "New content:" ++ nl ++ "print(2)")) /\
  requests (snd out) = [user_request sample_cfg (edit_prompt "print(1)" "double it")] /\
  (forall q, fs_at (snd out) q = fs_at (typing_world ["n"]) q) /\
  stdin (snd out) = [].
Proof.
  apply (declined_edit_has_asked_provider sample_cfg (typing_world ["n"])
           "app.py" "double it" "print(1)" "n" (Some "print(2)") [] []);
    try reflexivity. discriminate.
Defined.

(** X17: when the first choice of the reply has no content ([None]) and
    the overwrite is confirmed, the file is opened for writing before the
    write fails: it ends up empty, and [Error writing: ...] is returned. *)
Theorem edit_with_empty_message_truncates
  (cfg : config) (w : world) (path instruction content answer : string)
  (others : list (option string)) (more : list string) :
  contains " " path = false ->
  fs_at w (full_path cfg path) = Some (Regular (inr content)) ->
  contains "Error" content = false ->
  api w (user_request cfg (edit_prompt content instruction)) = inr (None :: others) ->
  stdin w = answer :: more ->
  lower answer = "y" ->
  wdeny w (full_path cfg path) = None ->
  let out := get_response cfg ("edit " ++ path ++ " " ++ instruction) w in
  fst out = Returned (Some ("Error writing: write() argument must be str, not None" ++
                            nl ++ "New content:" ++ nl ++ "None")) /\
  fs_at (snd out) (full_path cfg path) = Some (Regular (inr "")).
Proof.
  intros Hpath Hfile Hclean Hapi Hin Hy Hd out. subst out.
  rewrite (get_response_edit cfg w path instruction content Hpath Hfile Hclean), Hapi.
  rewrite (write_file_none_confirmed cfg (asked w _) path _ answer more Hfile Hin Hy Hd).
  cbn [fst snd format]. rewrite set_file_hit. split; reflexivity.
Qed.

Lemma edit_with_empty_message_witness :
  let out := get_response sample_cfg "edit app.py null" (typing_world ["y"]) in
  fst out = Returned (Some ("Error writing: write() argument must be str, not None" ++
                            nl ++ "New content:" ++ nl ++ "None")) /\
  fs_at (snd out) "/home/dev/nock/app.py" = Some (Regular (inr "")).
Proof.
  apply (edit_with_empty_message_truncates sample_cfg (typing_world ["y"])
           "app.py" "null" "print(1)" "y" [] []); reflexivity.
Defined.

(** X18: [get_response] changes what the file system holds at the
    file named by the first word after [write] or [edit], joined to the
    project directory, and nowhere else: a path at which something changed
    is that path or another spelling of the same file. *)
Theorem get_response_changes_only_its_target
  (cfg : config) (prompt : string) (w : world) (q : string) :
  fs_at (snd (get_response cfg prompt w)) q <> fs_at w q ->
  exists path rest,
    (startswith (lower prompt) "write " = true /\
     split_once " " (drop 6 prompt) = [path; rest] \/
     startswith (lower prompt) "edit " = true /\
     split_once " " (drop 5 prompt) = [path; rest]) /\
    (q = full_path cfg path \/ alias w q (full_path cfg path) = true).
Proof.
  intros Hdiff.
  destruct (get_response_world cfg prompt w)
    as [E | [[rq E] | (path & rest & c & w0 & Hw0 & Hverb & E)]];
    rewrite E in Hdiff.
  - now destruct Hdiff.
  - now destruct Hdiff.
  - exists path, rest. split; [exact Hverb|].
    destruct (String.eqb q (full_path cfg path)) eqn:Hq;
      [left; now apply String.eqb_eq|].
    destruct (alias w q (full_path cfg path)) eqn:Ha; [now right|].
    apply String.eqb_neq in Hq. exfalso. apply Hdiff.
    destruct (write_file_effect cfg path c w0) as (_ & _ & _ & _ & Hframe & _).
    assert (Ha0 : alias w0 q (full_path cfg path) = false)
      by (destruct Hw0 as [->|[rq ->]]; exact Ha).
    rewrite (Hframe q Hq Ha0). now destruct Hw0 as [->|[rq ->]].
Qed.

Lemma changes_only_target_witness :
  exists path rest,
    (startswith (lower "write ./app.py x") "write " = true /\
     split_once " " (drop 6 "write ./app.py x") = [path; rest] \/
     startswith (lower "write ./app.py x") "edit " = true /\
     split_once " " (drop 5 "write ./app.py x") = [path; rest]) /\
    ("/home/dev/nock/app.py" = full_path sample_cfg path \/
     alias (linked_world ["y"]) "/home/dev/nock/app.py" (full_path sample_cfg path) = true).
Proof.
  apply (get_response_changes_only_its_target sample_cfg "write ./app.py x"
           (linked_world ["y"]) "/home/dev/nock/app.py").
  vm_compute. discriminate.
Defined.

(** X19: one call of [get_response] consumes at most one line of input
    and makes at most one request, and never changes what the system or
    the provider would answer. *)
Theorem get_response_effects_are_bounded (cfg : config) (prompt : string) (w : world) :
  let w' := snd (get_response cfg prompt w) in
  (stdin w' = stdin w \/ stdin w' = tl (stdin w)) /\
  (requests w' = requests w \/ exists rq, requests w' = (requests w ++ [rq])%list) /\
  wdeny w' = wdeny w /\ api w' = api w.
Proof.
  cbv zeta. split; [apply get_response_stdin|].
  destruct (get_response_world cfg prompt w)
    as [-> | [[rq ->] | (path & rest & c & w0 & Hw0 & _ & ->)]].
  - repeat split. now left.
  - repeat split. right. now exists rq.
  - destruct (write_file_effect cfg path c w0) as (_ & -> & -> & -> & _).
    destruct Hw0 as [->|[rq ->]]; repeat split; [now left | right; now exists rq].
Qed.

(** X20: a prompt that starts with none of the three verbs is sent to
    the provider unchanged, in one request; the first choice is returned,
    and a failure or an empty list of choices comes back as [Error: ...]. *)
Theorem free_text_is_sent_as_it_is (cfg : config) (prompt : string) (w : world) :
  startswith (lower prompt) "read " = false ->
  startswith (lower prompt) "write " = false ->
  startswith (lower prompt) "edit " = false ->
  get_response cfg prompt w =
    (match api w (user_request cfg prompt) with
     | inr (reply :: _) => Returned reply
     | inr [] => Returned (Some "Error: list index out of range")
     | inl e => Returned (Some ("Error: " ++ str_exn e))
     end,
     asked w (user_request cfg prompt)).
Proof.
  intros Hr Hw He. unfold get_response. rewrite Hr, Hw, He.
  unfold try_except, bind, chat_completions_create.
  fold (asked w (user_request cfg prompt)).
  now destruct (api w (user_request cfg prompt)) as [e|[|c choices]].
Qed.

Lemma free_text_witness :
  get_response sample_cfg "reader mode?" (typing_world []) =
    (Returned (Some "print(2)"),
     asked (typing_world []) (user_request sample_cfg "reader mode?")).
Proof.
  apply (free_text_is_sent_as_it_is sample_cfg "reader mode?" (typing_world []));
    reflexivity.
Defined.

Lemma chat_loop_ends_gen (cfg : config) (fuel : nat) :
  forall w,
    length (stdin w) < fuel ->
    fst (fst (chat_loop cfg fuel w)) <> OutOfFuel /\
    (fst (fst (chat_loop cfg fuel w)) = Exited ->
     exists line, In line (stdin w) /\ lower (strip line) = "exit") /\
    length (snd (fst (chat_loop cfg fuel w))) <= length (stdin w).
Proof.
  induction fuel as [|fuel IH]; intros w Hfuel; [inversion Hfuel|].
  cbn [chat_loop]. unfold input.
  destruct (stdin w) as [|line rest] eqn:Hin.
  - cbn [fst snd length]. repeat split; [discriminate | discriminate | auto].
  - set (w1 := prompted w "Prompt: ").
    assert (H1 : stdin w1 = rest) by (unfold w1; cbn [prompted stdin]; now rewrite Hin).
    destruct (String.eqb (lower (strip line)) "exit") eqn:Hexit.
    + cbn [fst snd length]. repeat split; [discriminate | | auto with arith].
      intros _. exists line. split; [now left | now apply String.eqb_eq].
    + destruct (get_response_returns_value cfg (strip line) w1) as [r Hr].
      pose proof (get_response_stdin cfg (strip line) w1) as Hs.
      destruct (get_response cfg (strip line) w1) as [res w2].
      cbn [fst snd] in Hr, Hs. subst res.
      assert (H2 : length (stdin w2) <= length rest /\
                   forall l, In l (stdin w2) -> In l rest).
      { rewrite <- H1. destruct Hs as [->| ->]; [split; [lia | auto]|].
        destruct (stdin w1) as [|x xs]; cbn [tl length]; split; try lia; auto.
        intros y Hy. now right. }
      destruct H2 as [H2 H3].
      cbn [length] in Hfuel.
      destruct (IH w2 ltac:(lia)) as (Hend & Hexited & Hprinted).
      destruct (chat_loop cfg fuel w2) as [[ending printed] w3].
      cbn [fst snd length] in *. repeat split; [exact Hend | | lia].
      intros He. destruct (Hexited He) as (l & Hl & Hl').
      exists l. split; [right; now apply H3 | exact Hl'].
Qed.

(** X21: on a finite input the chat loop comes to an end after at most
    one iteration per line: the bound on its iterations is not reached.  It
    ends by the exit command only if some line of the input, stripped and in
    lower case, is [exit], and it prints at most one response per line. *)
Theorem chat_loop_ends (cfg : config) (fuel : nat) (w : world) :
  length (stdin w) < fuel ->
  fst (fst (chat_loop cfg fuel w)) <> OutOfFuel /\
  (fst (fst (chat_loop cfg fuel w)) = Exited ->
   exists line, In line (stdin w) /\ lower (strip line) = "exit") /\
  length (snd (fst (chat_loop cfg fuel w))) <= length (stdin w).
Proof.
  intros H. exact (chat_loop_ends_gen cfg fuel w H).
Qed.

Lemma chat_loop_ends_witness :
  length (stdin (typing_world ["read app.py"; "write app.py x"; "n"; "  EXIT "; "more"])) < 6 /\
  chat_loop sample_cfg 6 (typing_world ["read app.py"; "write app.py x"; "n"; "  EXIT "; "more"])
  = (Exited,
     [response_text (Some "print(1)"); response_text (Some "Cancelled")],
     snd (chat_loop sample_cfg 6
            (typing_world ["read app.py"; "write app.py x"; "n"; "  EXIT "; "more"]))) /\
  fst (fst (chat_loop sample_cfg 6
       (typing_world ["read app.py"; "write app.py x"; "n"; "  EXIT "; "more"]))) <> OutOfFuel /\
  (fst (fst (chat_loop sample_cfg 6
       (typing_world ["read app.py"; "write app.py x"; "n"; "  EXIT "; "more"]))) = Exited ->
   exists line,
     In line ["read app.py"; "write app.py x"; "n"; "  EXIT "; "more"] /\
     lower (strip line) = "exit") /\
  length (snd (fst (chat_loop sample_cfg 6
       (typing_world ["read app.py"; "write app.py x"; "n"; "  EXIT "; "more"])))) <= 5.
Proof.
  split; [cbn; lia|]. split; [reflexivity|].
  apply (chat_loop_ends sample_cfg 6
           (typing_world ["read app.py"; "write app.py x"; "n"; "  EXIT "; "more"])).
  cbn. lia.
Defined.

(** X22: start-up sets the globals exactly when the back end is [groq]
    (also by default) or [moonshot] and the key of that back end is set and
    not empty; the client and the model name are those of the back end. *)
Theorem start_is_ready_iff
  (environ : string -> option string) (backend model_name : string) (c : client) :
  start environ = Ready backend c model_name <->
  (backend = "groq" /\
   (environ "KIMI_BACKEND" = None \/ environ "KIMI_BACKEND" = Some "groq") /\
   exists key, environ "GROQ_API_KEY" = Some key /\ key <> "" /\
               c = Groq key /\ model_name = "llama3-70b-8192")
  \/
  (backend = "moonshot" /\ environ "KIMI_BACKEND" = Some "moonshot" /\
   exists key, environ "MOONSHOT_API_KEY" = Some key /\ key <> "" /\
               c = OpenAI key "https://api.moonshot.ai/v1" /\
               model_name = "kimi-k2-instruct").
Proof.
  unfold start. split.
  - destruct (environ "KIMI_BACKEND") as [b|] eqn:Eb.
    + destruct (String.eqb b "groq") eqn:Eg.
      * apply String.eqb_eq in Eg; subst b.
        destruct (environ "GROQ_API_KEY") as [k|]; [|discriminate].
        cbn [truthy]. destruct (String.eqb k "") eqn:Ek; [discriminate|].
        intros [= <- <- <-]. left. repeat split; auto.
        exists k. apply String.eqb_neq in Ek. now repeat split.
      * destruct (String.eqb b "moonshot") eqn:Em; [|discriminate].
        apply String.eqb_eq in Em; subst b.
        destruct (environ "MOONSHOT_API_KEY") as [k|]; [|discriminate].
        cbn [truthy]. destruct (String.eqb k "") eqn:Ek; [discriminate|].
        intros [= <- <- <-]. right. repeat split; auto.
        exists k. apply String.eqb_neq in Ek. now repeat split.
    + cbn [String.eqb Ascii.eqb Bool.eqb andb].
      destruct (environ "GROQ_API_KEY") as [k|]; [|discriminate].
      cbn [truthy]. destruct (String.eqb k "") eqn:Ek; [discriminate|].
      intros [= <- <- <-]. left. repeat split; auto.
      exists k. apply String.eqb_neq in Ek. now repeat split.
  - intros [(-> & Hb & k & -> & Hk & -> & ->) | (-> & -> & k & -> & Hk & -> & ->)].
    + apply String.eqb_neq in Hk.
      destruct Hb as [-> | ->]; cbn [String.eqb Ascii.eqb Bool.eqb andb truthy];
        now rewrite Hk.
    + apply String.eqb_neq in Hk.
      cbn [String.eqb Ascii.eqb Bool.eqb andb truthy]. now rewrite Hk.
Qed.

End RelayExtras.
